(** * fillpdf: the FDF encoder and the pdftk form filler

    A shallow embedding of the Go package [fillpdf].  The package exists in
    two revisions that share their names:

    - [src/fillpdf.go]: [Fill] stages the FDF data in a temporary directory
      ([createFdfFile form path] writes a file) and runs pdftk inside it;
    - the second source file: [createFdfFile form] builds the FDF bytes in
      memory, [Fill] pipes them to pdftk's standard input and
      [FillFromReader] stages them in a temporary file.

    Go strings and byte slices are sequences of bytes: [string].  A Go
    [error] is modelled by its message.  Calls into the operating system are
    answered by an explicit oracle and every call leaves an event in a
    trace, so that statements about "no write happened" or "the directory is
    removed once" are statements about that trace. *)

From Stdlib Require Import ZArith Lia Ascii String.
From stdpp Require Import gmap strings list fin_maps.

Local Open Scope Z_scope.

(** ** Go runtime: characters and decimal text *)

(** The line feed written by [fmt.Fprintln] and by the [\n] of a format. *)
Definition LF : string := String "010"%char EmptyString.

(** The double quote of the header's second line. *)
Definition DQUOTE : string := String "034"%char EmptyString.

(** The byte ['0' + d] for a digit value [d]. *)
Definition digit_char (d : Z) : ascii :=
  ascii_of_nat (48 + Z.to_nat d).

(** Decimal digits of a non-negative integer, most significant first, in
    front of [acc]; [fuel] bounds the number of digits produced. *)
Fixpoint utoa_loop (fuel : nat) (n : Z) (acc : string) : string :=
  match fuel with
  | O => acc
  | S fuel' =>
      let acc' := String (digit_char (n mod 10)) acc in
      if n / 10 =? 0 then acc' else utoa_loop fuel' (n / 10) acc'
  end.

(** Enough fuel for every digit of [n]: one more than its bit length. *)
Definition utoa_fuel (n : Z) : nat := S (Z.to_nat (Z.log2 n)).

Definition utoa (n : Z) : string := utoa_loop (utoa_fuel n) n EmptyString.

(** [strconv.FormatInt(n, 10)], which is what [%v] prints for an [int]. *)
Definition FormatInt (n : Z) : string :=
  if n <? 0 then String "-"%char (utoa (- n)) else utoa n.

(** ** strconv.FormatFloat(v, 'f', -1, 64)

    The standard library is not part of the repository; the model follows
    [strconv/ftoa.go].  A [float64] is its IEEE 754 bit pattern
    ([math.Float64bits]).  With precision [-1] the digits are the shortest
    decimal that lies in the rounding interval of the value (every decimal
    in that interval parses back to the same [float64]), the digit position
    is found by walking from the most significant position down, as
    [roundShortest] does, and [%f] lays the digits out without exponent. *)
Module strconv.

Definition mantbits : Z := 52.
Definition expbits : Z := 11.
Definition bias : Z := -1023.

(** The three numbers [roundShortest] compares, for [mant * 2^(exp-52)]
    with [mant > 0], as integers over a common unit [10^qmin]:
    the value, the upper bound [(2*mant+1) * 2^(exp-53)] and the lower
    bound, which is half the distance to the next lower float. *)
Record bounds := Bounds {
  b_lower : Z;
  b_value : Z;
  b_upper : Z;
  b_inclusive : bool;   (* mant%2 == 0 *)
  b_qmin : Z            (* decimal exponent of the unit *)
}.

Definition computeBounds (mant exp : Z) : bounds :=
  let s := exp - mantbits - 2 in
  let F := if s <? 0 then 5 ^ (- s) else 2 ^ s in
  let minexp := bias + 1 in
  let lo :=
    if (2 ^ mantbits <? mant) || (exp =? minexp)
    then 4 * mant - 2      (* mantlo = mant - 1,   explo = exp *)
    else 4 * mant - 1 in   (* mantlo = mant*2 - 1, explo = exp - 1 *)
  {| b_lower := lo * F;
     b_value := 4 * mant * F;
     b_upper := (4 * mant + 2) * F;
     b_inclusive := Z.even mant;
     b_qmin := Z.min s 0 |}.

(** May a decimal [x] be printed for the value: does it round back? *)
Definition inside (b : bounds) (x : Z) : bool :=
  if b_inclusive b
  then (b_lower b <=? x) && (x <=? b_upper b)
  else (b_lower b <? x) && (x <? b_upper b).

(** The value cut after the digit of weight [10^k] ([RoundDown]) and
    the next decimal above it ([RoundUp]). *)
Definition roundDown (b : bounds) (k : nat) : Z :=
  let p := 10 ^ Z.of_nat k in (b_value b / p) * p.

Definition roundUp (b : bounds) (k : nat) : Z :=
  roundDown b k + 10 ^ Z.of_nat k.

(** [Round]: to the nearest of the two, a tie goes to the even digit. *)
Definition roundNearest (b : bounds) (k : nat) : Z :=
  let p := 10 ^ Z.of_nat k in
  let r := b_value b - roundDown b k in
  if p <? 2 * r then roundUp b k
  else if 2 * r <? p then roundDown b k
  else if Z.odd (roundDown b k / p) then roundUp b k
  else roundDown b k.

(** One position of the digit walk: [Some x] when the walk stops here. *)
Definition roundAt (b : bounds) (k : nat) : option Z :=
  let okdown := inside b (roundDown b k) in
  let okup := inside b (roundUp b k) in
  if okdown && okup then Some (roundNearest b k)
  else if okdown then Some (roundDown b k)
  else if okup then Some (roundUp b k)
  else None.

(** The walk, from the position of weight [10^k] down to the last digit
    of the exact value, where it stops in any case.  Returns the decimal
    (in units of [10^qmin]) and the position it was rounded at. *)
Fixpoint roundShortest (b : bounds) (k : nat) : Z * nat :=
  match k with
  | O => (b_value b, O)
  | S k' =>
      match roundAt b k with
      | Some x => (x, k)
      | None => roundShortest b k'
      end
  end.

(** The digits of a decimal: [d_digits] read as an integer, times
    [10^(d_dp - length d_digits)] (Go's [decimalSlice]). *)
Record decimalSlice := DecimalSlice {
  d_digits : string;
  d_dp : Z
}.

Definition d_nd (d : decimalSlice) : Z := Z.of_nat (String.length (d_digits d)).

Definition shortest (mant exp : Z) : decimalSlice :=
  if mant =? 0 then {| d_digits := EmptyString; d_dp := 0 |}
  else
    let b := computeBounds mant exp in
    let '(x, k) := roundShortest b (utoa_fuel (b_upper b)) in
    let ds := utoa (x / 10 ^ Z.of_nat k) in
    {| d_digits := ds;
       d_dp := Z.of_nat (String.length ds) + Z.of_nat k + b_qmin b |}.

(** The byte at index [j] of the digits, ['0'] outside them. *)
Definition digit_at (d : decimalSlice) (j : Z) : ascii :=
  if (0 <=? j) && (j <? d_nd d)
  then match String.get (Z.to_nat j) (d_digits d) with
       | Some c => c
       | None => "0"%char
       end
  else "0"%char.

Fixpoint zeros (n : nat) : string :=
  match n with
  | O => EmptyString
  | S n' => String "0"%char (zeros n')
  end.

(** The fraction digits [i, i+1, ..., i+n-1] after the point. *)
Fixpoint fraction (d : decimalSlice) (i : Z) (n : nat) : string :=
  match n with
  | O => EmptyString
  | S n' => String (digit_at d (d_dp d + i)) (fraction d (i + 1) n')
  end.

(** [fmtF]: [-ddddddd.ddddd]. *)
Definition fmtF (neg : bool) (d : decimalSlice) (prec : Z) : string :=
  let sign := if neg then "-" else "" in
  let int_part :=
    if 0 <? d_dp d
    then
      let m := Z.min (d_nd d) (d_dp d) in
      String.substring 0 (Z.to_nat m) (d_digits d)
        +:+ zeros (Z.to_nat (d_dp d - m))
    else "0" in
  let frac_part :=
    if 0 <? prec
    then "." +:+ fraction d 0 (Z.to_nat prec)
    else "" in
  sign +:+ int_part +:+ frac_part.

(** What the bits stand for: [Finite neg mant exp] is
    [(-1)^neg * mant * 2^(exp - 52)]. *)
Inductive decoded :=
  | NaN
  | Inf (neg : bool)
  | Finite (neg : bool) (mant exp : Z).

(** The first lines of [FormatFloat]: split the bits into sign, exponent
    and mantissa and tell the special exponents apart. *)
Definition decode (bits : Z) : decoded :=
  let neg := negb (Z.shiftr bits (expbits + mantbits) =? 0) in
  let exp := Z.land (Z.shiftr bits mantbits) (Z.shiftl 1 expbits - 1) in
  let mant := Z.land bits (Z.shiftl 1 mantbits - 1) in
  if exp =? Z.shiftl 1 expbits - 1 then
    (* Inf, NaN *)
    if negb (mant =? 0) then NaN else Inf neg
  else if exp =? 0 then
    (* denormalized *)
    Finite neg mant (exp + 1 + bias)
  else
    (* add implicit top bit *)
    Finite neg (Z.lor mant (Z.shiftl 1 mantbits)) (exp + bias).

(** [FormatFloat(v, 'f', -1, 64)] on the bits of [v]. *)
Definition FormatFloat (bits : Z) : string :=
  match decode bits with
  | NaN => "NaN"
  | Inf neg => if neg then "-Inf" else "+Inf"
  | Finite neg mant exp =>
      let digs := shortest mant exp in
      let prec := Z.max (d_nd digs - d_dp digs) 0 in
      fmtF neg digs prec
  end.

End strconv.

(** ** The Form and its encoding *)

(** The dynamic types a [Form] value is switched on: [bool], [float64]
    (by bit pattern), and, for the [default] case, the types whose [%v]
    text is modelled here: [string], [int] and [nil]. *)
Inductive value :=
  | VBool (b : bool)
  | VFloat64 (bits : Z)
  | VString (s : string)
  | VInt (n : Z)
  | VNil.

(** [type Form map[string]interface{}] *)
Abbreviation Form := (gmap string value).

(** A [range] over a Go map visits every entry once, in an order the
    runtime picks anew each time. *)
Definition range_order (form : Form) (it : list (string * value)) : Prop :=
  it ≡ₚ map_to_list form.

(** The type switch of [createFdfFile]; the last three cases are its
    [default], [fmt.Sprintf("%v", value)]. *)
Definition valStr (v : value) : string :=
  match v with
  | VBool b => if b then "Yes" else "Off"
  | VFloat64 bits => strconv.FormatFloat bits
  | VString s => s
  | VInt n => FormatInt n
  | VNil => "<nil>"
  end.

(** [fmt.Fprintf(w, "<< /T (%s) /V (%s)>>\n", key, valStr)] *)
Definition fieldEntry (key : string) (v : value) : string :=
  "<< /T (" +:+ key +:+ ") /V (" +:+ valStr v +:+ ")>>" +:+ LF.

(** The body of the [range] loop, run over the order [it]. *)
Definition fieldEntries (it : list (string * value)) : list string :=
  (fun kv => fieldEntry kv.1 kv.2) <$> it.

Definition concat_lines (ls : list string) : string :=
  foldr String.append EmptyString ls.

(** What the encoder writes, given its two constants: header line,
    entries, footer line. *)
Definition fdfText (header footer : string) (it : list (string * value)) : string :=
  (header +:+ LF) +:+ concat_lines (fieldEntries it) +:+ (footer +:+ LF).

(** ** The operating system

    A Go call that returns [(x, err)] returns [Ok x] or [Err msg]. *)
Inductive res (A : Type) :=
  | Ok (a : A)
  | Err (e : string).
Arguments Ok {A} a.
Arguments Err {A} e.

(** Where a spawned process reads its standard input from. *)
Inductive stdin_source :=
  | StdinNone
  | StdinBytes (data : string)     (* bytes.NewReader(data) *)
  | StdinReader (content : string) (* the caller's io.Reader *).

(** One call into the operating system, with what it answered. *)
Inductive event :=
  | EAbs (path : string) (r : res string)
  | EStat (path : string) (r : option string)
  | ELookPath (file : string) (r : res string)
  | ETempDir (dir pattern : string) (r : res string)
  | ECreateTemp (dir pattern : string) (r : res string)
  | ECreate (path : string) (r : option string)
  | EWrite (path data : string) (r : option string)
  | EClose (path : string)
  | ERemoveAll (path : string) (r : option string)
  | ERemove (path : string) (r : option string)
  | ELog (msg : string)
  | ERun (dir : option string) (name : string) (args : list string)
         (stdin : stdin_source) (r : res string).

(** The answers of the system; [None] is a [nil] error. *)
Record OS := {
  os_Abs : string -> res string;               (* filepath.Abs *)
  os_Clean : string -> string;                 (* filepath.Clean *)
  os_Stat : string -> option string;           (* os.Stat, error only *)
  os_IsNotExist : string -> bool;              (* os.IsNotExist *)
  os_LookPath : string -> res string;          (* exec.LookPath *)
  os_TempDir : string -> string -> res string; (* ioutil.TempDir *)
  os_CreateTemp : string -> string -> res string; (* os.CreateTemp, f.Name() *)
  os_Create : string -> option string;         (* os.Create *)
  os_Write : string -> string -> option string; (* writes reaching the file *)
  os_RemoveAll : string -> option string;      (* os.RemoveAll *)
  os_Remove : string -> option string;         (* os.Remove *)
  (* cmd.Run / cmd.Output: captured standard output and the error *)
  os_Run : option string -> string -> list string -> stdin_source ->
           string * option string;
  os_Stderr : option string -> string -> list string -> stdin_source -> string
}.

(** A computation: its result and the calls it made, in order. *)
Definition M (A : Type) : Type := res A * list event.

Definition ret {A} (a : A) : M A := (Ok a, []).
Definition fail {A} (e : string) : M A := (Err e, []).

Definition bind {A B} (m : M A) (k : A -> M B) : M B :=
  match m with
  | (Ok a, t) => match k a with (r, t') => (r, t ++ t') end
  | (Err e, t) => (Err e, t)
  end.

Notation "'do' x <- m ; k" := (bind m (fun x => k))
  (at level 10, x name, m at level 100, k at level 200).

(** [if err != nil { return nil, fmt.Errorf(prefix + "%v", err) }] *)
Definition wrap {A} (prefix : string) (m : M A) : M A :=
  match m with
  | (Ok a, t) => (Ok a, t)
  | (Err e, t) => (Err (prefix +:+ e), t)
  end.

(** [if err != nil { return nil, fmt.Errorf(msg) }] *)
Definition replace_err {A} (msg : string) (m : M A) : M A :=
  match m with
  | (Ok a, t) => (Ok a, t)
  | (Err _, t) => (Err msg, t)
  end.

(** [defer d]: [d] runs when the rest of the function, [body], has
    returned; it cannot change the returned values. *)
Definition defer {A} (d : list event) (body : M A) : M A :=
  match body with
  | (r, t) => (r, t ++ d)
  end.

Definition of_error (r : option string) : res unit :=
  match r with
  | None => Ok tt
  | Some e => Err e
  end.

Section calls.
Context (os : OS).

Definition Abs (path : string) : M string :=
  (os_Abs os path, [EAbs path (os_Abs os path)]).

Definition Stat (path : string) : M unit :=
  (of_error (os_Stat os path), [EStat path (os_Stat os path)]).

Definition LookPath (file : string) : M string :=
  (os_LookPath os file, [ELookPath file (os_LookPath os file)]).

Definition TempDir (dir pattern : string) : M string :=
  (os_TempDir os dir pattern, [ETempDir dir pattern (os_TempDir os dir pattern)]).

Definition CreateTemp (dir pattern : string) : M string :=
  (os_CreateTemp os dir pattern,
   [ECreateTemp dir pattern (os_CreateTemp os dir pattern)]).

Definition Create (path : string) : M unit :=
  (of_error (os_Create os path), [ECreate path (os_Create os path)]).

Definition Write (path data : string) : M unit :=
  (of_error (os_Write os path data), [EWrite path data (os_Write os path data)]).

(** [cmd.Output()] with [cmd.Stdin = stdin]: the output comes back also
    when the command fails. *)
Definition Output (name : string) (args : list string) (stdin : stdin_source)
  : string * option string * list event :=
  match os_Run os None name args stdin with
  | (out, None) => (out, None, [ERun None name args stdin (Ok out)])
  | (out, Some e) => (out, Some e, [ERun None name args stdin (Err e)])
  end.

(** [exists] returns whether the given file or directory exists or not. *)
Definition exists_ (path : string) : M bool :=
  match os_Stat os path with
  | None => (Ok true, [EStat path None])
  | Some err =>
      if os_IsNotExist os err then (Ok false, [EStat path (Some err)])
      else (Err err, [EStat path (Some err)])
  end.

End calls.

(** Lines joined by [sep], as in a Go raw string literal. *)
Fixpoint join (sep : string) (ls : list string) : string :=
  match ls with
  | [] => EmptyString
  | [l] => l
  | l :: ls' => l +:+ sep +:+ join sep ls'
  end.

(** ** src/fillpdf.go *)
Module fillpdf_go.

Definition fdfHeader : string :=
  join LF ["%FDF-1.2"; "%,,oe" +:+ DQUOTE; "1 0 obj"; "<<"; "/FDF << /Fields ["].

Definition fdfFooter : string :=
  join LF ["]"; ">>"; ">>"; "endobj"; "trailer"; "<<"; "/Root 1 0 R"; ">>"; "%%EOF"].

(** Everything [createFdfFile] hands to its buffered writer. *)
Definition fdfContent (it : list (string * value)) : string :=
  fdfText fdfHeader fdfFooter it.

Section with_os.
Context (os : OS).

(** Modelled from the spec: [runCommandInPath] is defined in a file of
    the package that is not among the sources.  It runs the command
    with the given working directory, captures the standard output in
    full and, when the command fails, returns the tool's diagnostic
    output as the error. *)
Definition runCommandInPath (dir name : string) (args : list string) : M string :=
  match os_Run os (Some dir) name args StdinNone with
  | (out, None) => (Ok out, [ERun (Some dir) name args StdinNone (Ok out)])
  | (_, Some _) =>
      let msg := os_Stderr os (Some dir) name args StdinNone in
      (Err msg, [ERun (Some dir) name args StdinNone (Err msg)])
  end.

(** [createFdfFile(form, path)]; [it] is the order in which the
    [range] visits the form.  The buffered text reaches the file at
    the latest with [w.Flush()], whose error is the function's. *)
Definition createFdfFile (it : list (string * value)) (path : string) : M unit :=
  do _ <- Create os path;
  defer [EClose path]
    (Write os path (fdfContent it)).

(** The deferred function of [Fill]: remove, and log the error only. *)
Definition removeTmpDir (tmpDir : string) : list event :=
  match os_RemoveAll os tmpDir with
  | None => [ERemoveAll tmpDir None]
  | Some errD =>
      [ERemoveAll tmpDir (Some errD);
       ELog ("fillpdf: failed to remove temporary directory '" +:+ tmpDir
             +:+ "' again: " +:+ errD)]
  end.

Definition pdftkArgs (formPDFFile fdfFile : string) : list string :=
  [formPDFFile; "fill_form"; fdfFile; "output"; "-"].

Definition Fill (it : list (string * value)) (formPDFFile : string) : M string :=
  (* Get the absolute paths. *)
  do formPDFFile <- wrap "failed to create the absolute path: " (Abs os formPDFFile);
  (* Check if the form file exists. *)
  do e <- wrap "failed to check if form PDF file exists: " (exists_ os formPDFFile);
  if negb e then fail ("form PDF file does not exists: '" +:+ formPDFFile +:+ "'")
  else
  (* Check if the pdftk utility exists. *)
  do _ <- replace_err "pdftk utility is not installed!" (LookPath os "pdftk");
  (* Create a temporary directory. *)
  do tmpDir <- wrap "failed to create temporary directory: " (TempDir os "" "fillpdf-");
  (* Remove the temporary directory on defer again. *)
  defer (removeTmpDir tmpDir)
    ((* Create the fdf data file. *)
     let fdfFile := os_Clean os (tmpDir +:+ "/data.fdf") in
     do _ <- wrap "failed to create fdf form data file: " (createFdfFile it fdfFile);
     (* Run the pdftk utility. *)
     do out <- wrap "pdftk error: "
                 (runCommandInPath tmpDir "pdftk" (pdftkArgs formPDFFile fdfFile));
     ret out).

End with_os.
End fillpdf_go.

(** ** The second source file (in-memory encoder, [FillFromReader]) *)
Module part_000.

Definition fdfHeader : string :=
  join (LF +:+ " ")
    ["%FDF-1.2"; "%,,oe" +:+ DQUOTE; "1 0 obj"; "<<"; "/FDF << /Fields ["].

Definition fdfFooter : string :=
  join (LF +:+ " ")
    ["]"; ">>"; ">>"; "endobj"; "trailer"; "<<"; "/Root 1 0 R"; ">>"; "%%EOF"].

(** [createFdfFile(form) []byte]; [it] is the order in which the [range]
    visits the form. *)
Definition createFdfFile (it : list (string * value)) : string :=
  fdfText fdfHeader fdfFooter it.

Section with_os.
Context (os : OS).

(** [cmd.Output()] followed by the error check of the two callers. *)
Definition pdftkOutput (args : list string) (stdin : stdin_source)
    (describe : string -> string -> string) : M string :=
  let '(out, err, t) := Output os "pdftk" args stdin in
  match err with
  | None => (Ok out, t)
  | Some e => (Err (describe e out), t)
  end.

Definition FillFromReader (it : list (string * value)) (pdfFile : string) : M string :=
  (* Check if the pdftk utility exists. *)
  do _ <- replace_err "pdftk utility is not installed!" (LookPath os "pdftk");
  let fdfFile := createFdfFile it in
  do f <- CreateTemp os "" "fdf";
  (* defer os.Remove(f.Name()): the error is dropped *)
  defer [ERemove f (os_Remove os f)]
    (do _ <- Write os f fdfFile;
     let args := ["-"; "fill_form"; f; "output"; "-"] in
     pdftkOutput args (StdinReader pdfFile)
       (fun e out => "pdftk error: " +:+ e +:+ LF +:+ "Output: " +:+ out)).

Definition Fill (it : list (string * value)) (formPDFFile : string) : M string :=
  (* Get the absolute paths. *)
  do formPDFFile <- wrap "failed to create the absolute path: " (Abs os formPDFFile);
  (* Check if the form file exists. *)
  do e <- wrap "failed to check if form PDF file exists: " (exists_ os formPDFFile);
  if negb e then fail ("form PDF file does not exist: '" +:+ formPDFFile +:+ "'")
  else
  (* Check if the pdftk utility exists. *)
  do _ <- replace_err "pdftk utility is not installed!" (LookPath os "pdftk");
  let fdfFile := createFdfFile it in
  (* Create the pdftk command line arguments. *)
  let args := [formPDFFile; "fill_form"; "-"; "output"; "-"] in
  pdftkOutput args (StdinBytes fdfFile) (fun e _ => "pdftk error: " +:+ e).

End with_os.
End part_000.

(** ** Reading a trace *)

(** The transient working areas a trace created. *)
Definition created (ev : event) : list string :=
  match ev with
  | ETempDir _ _ (Ok d) => [d]
  | ECreateTemp _ _ (Ok f) => [f]
  | _ => []
  end.

(** The paths a trace removed. *)
Definition removed (ev : event) : list string :=
  match ev with
  | ERemoveAll p _ => [p]
  | ERemove p _ => [p]
  | _ => []
  end.

(** The removals that failed. *)
Definition failed_removal (ev : event) : bool :=
  match ev with
  | ERemoveAll _ (Some _) => true
  | ERemove _ (Some _) => true
  | _ => false
  end.

Definition is_log (ev : event) : bool :=
  match ev with
  | ELog _ => true
  | _ => false
  end.

(** Calls that change the file system (or may, as a spawned process). *)
Definition writes_fs (ev : event) : bool :=
  match ev with
  | ETempDir _ _ _ | ECreateTemp _ _ _ | ECreate _ _ | EWrite _ _ _
  | ERemoveAll _ _ | ERemove _ _ | ERun _ _ _ _ _ => true
  | _ => false
  end.

(** Calls that ask for a transient directory or file, or create a file. *)
Definition creates_temp (ev : event) : bool :=
  match ev with
  | ETempDir _ _ _ | ECreateTemp _ _ _ | ECreate _ _ => true
  | _ => false
  end.

Definition areas_created (t : list event) : list string := concat (map created t).
Definition areas_removed (t : list event) : list string := concat (map removed t).

(** ** Example inputs *)

Definition bits_1_0 : Z := 0x3FF0000000000000.
Definition bits_1_5 : Z := 0x3FF8000000000000.
Definition bits_30 : Z := 0x403E000000000000.

(** [{"Name": "Alice", "Subscribed": true, "Age": 30.0}] *)
Definition alice : Form :=
  <["Name" := VString "Alice"]>
    (<["Subscribed" := VBool true]> (<["Age" := VFloat64 bits_30]> ∅)).

(** A system on which every call succeeds, with the template at [/t.pdf]. *)
Definition os_ok : OS :=
  {| os_Abs := fun p => Ok p;
     os_Clean := fun p => p;
     os_Stat := fun _ => None;
     os_IsNotExist := fun e => String.eqb e "no such file or directory";
     os_LookPath := fun f => Ok ("/usr/bin/" +:+ f);
     os_TempDir := fun _ pat => Ok ("/tmp/" +:+ pat +:+ "1");
     os_CreateTemp := fun _ pat => Ok ("/tmp/" +:+ pat +:+ "1");
     os_Create := fun _ => None;
     os_Write := fun _ _ => None;
     os_RemoveAll := fun _ => None;
     os_Remove := fun _ => None;
     os_Run := fun _ _ _ _ => ("%PDF-filled", None);
     os_Stderr := fun _ _ _ _ => "" |}.

(** The same system with other answers to the two removal calls. *)
Definition with_removal (os : OS) (ra rm : string -> option string) : OS :=
  {| os_Abs := os_Abs os;
     os_Clean := os_Clean os;
     os_Stat := os_Stat os;
     os_IsNotExist := os_IsNotExist os;
     os_LookPath := os_LookPath os;
     os_TempDir := os_TempDir os;
     os_CreateTemp := os_CreateTemp os;
     os_Create := os_Create os;
     os_Write := os_Write os;
     os_RemoveAll := ra;
     os_Remove := rm;
     os_Run := os_Run os;
     os_Stderr := os_Stderr os |}.

(** Every removal is refused. *)
Definition os_remove_fails : OS :=
  with_removal os_ok (fun _ => Some "permission denied")
                     (fun _ => Some "permission denied").

(** Neither pdftk on the search path nor a file at the template path. *)
Definition os_bare : OS :=
  {| os_Abs := fun p => Ok p;
     os_Clean := fun p => p;
     os_Stat := fun _ => Some "no such file or directory";
     os_IsNotExist := fun e => String.eqb e "no such file or directory";
     os_LookPath := fun _ => Err "executable file not found in $PATH";
     os_TempDir := fun _ pat => Ok ("/tmp/" +:+ pat +:+ "1");
     os_CreateTemp := fun _ pat => Ok ("/tmp/" +:+ pat +:+ "1");
     os_Create := fun _ => None;
     os_Write := fun _ _ => None;
     os_RemoveAll := fun _ => None;
     os_Remove := fun _ => None;
     os_Run := fun _ _ _ _ => ("", Some "exec: no command");
     os_Stderr := fun _ _ _ _ => "" |}.

(** ** Reading a rendered number *)

Definition chars (s : string) : list ascii := list_ascii_of_string s.

(** The number a string of digits spells. *)
Definition digits_value (s : string) : Z :=
  fold_left (fun acc c => acc * 10 + (Z.of_nat (nat_of_ascii c) - 48)) (chars s) 0.

(** One of the bytes ['0'..'9']. *)
Definition decimal_digit (c : ascii) : bool :=
  let n := Z.of_nat (nat_of_ascii c) in
  (48 <=? n) && (n <=? 57).

(** A byte of plain decimal notation: a digit, the point or the sign. *)
Definition plain_char (c : ascii) : bool :=
  decimal_digit c || Ascii.eqb c "."%char || Ascii.eqb c "-"%char.

(** The text is one of the three names Go prints for a non-finite value. *)
Definition non_finite_name (s : string) : bool :=
  String.eqb s "NaN" || String.eqb s "+Inf" || String.eqb s "-Inf".

Definition has_exponent (s : string) : bool :=
  existsb (fun c => Ascii.eqb c "e" || Ascii.eqb c "E")%char (chars s).

Definition has_point (s : string) : bool :=
  existsb (fun c => Ascii.eqb c ".")%char (chars s).

(** A fraction that ends in a zero digit. *)
Definition trailing_zero (s : string) : bool :=
  has_point s &&
  match last (chars s) with
  | Some c => Ascii.eqb c "0"%char
  | None => false
  end.

(** ** More ways to read a trace *)

(** The spawned processes. *)
Definition is_run (ev : event) : bool :=
  match ev with
  | ERun _ _ _ _ _ => true
  | _ => false
  end.

(** The path a call creates, writes, closes or removes. *)
Definition touched (ev : event) : list string :=
  match ev with
  | ECreate p _ | EWrite p _ _ | EClose p | ERemoveAll p _ | ERemove p _ => [p]
  | _ => []
  end.

Definition paths_touched (t : list event) : list string := concat (map touched t).

(** Files opened by [os.Create] and files closed. *)
Definition opened (ev : event) : list string :=
  match ev with
  | ECreate p None => [p]
  | _ => []
  end.

Definition closed (ev : event) : list string :=
  match ev with
  | EClose p => [p]
  | _ => []
  end.

(** The text holds no closing parenthesis. *)
Definition no_rparen (s : string) : bool :=
  forallb (fun c => negb (Ascii.eqb c ")"%char)) (chars s).

(** pdftk exits with an error after printing a diagnostic. *)
Definition os_pdftk_fails : OS :=
  {| os_Abs := fun p => Ok p;
     os_Clean := fun p => p;
     os_Stat := fun _ => None;
     os_IsNotExist := fun e => String.eqb e "no such file or directory";
     os_LookPath := fun f => Ok ("/usr/bin/" +:+ f);
     os_TempDir := fun _ pat => Ok ("/tmp/" +:+ pat +:+ "1");
     os_CreateTemp := fun _ pat => Ok ("/tmp/" +:+ pat +:+ "1");
     os_Create := fun _ => None;
     os_Write := fun _ _ => None;
     os_RemoveAll := fun _ => None;
     os_Remove := fun _ => None;
     os_Run := fun _ _ _ _ => ("partial", Some "exit status 1");
     os_Stderr := fun _ _ _ _ => "Error: not a PDF" |}.

(** The same system with other answers to the process runs. *)
Definition with_run (os : OS)
    (run : option string -> string -> list string -> stdin_source ->
           string * option string) : OS :=
  {| os_Abs := os_Abs os;
     os_Clean := os_Clean os;
     os_Stat := os_Stat os;
     os_IsNotExist := os_IsNotExist os;
     os_LookPath := os_LookPath os;
     os_TempDir := os_TempDir os;
     os_CreateTemp := os_CreateTemp os;
     os_Create := os_Create os;
     os_Write := os_Write os;
     os_RemoveAll := os_RemoveAll os;
     os_Remove := os_Remove os;
     os_Run := run;
     os_Stderr := os_Stderr os |}.

(** * Theorems *)

(** ** The encoder *)

(** *** Strings *)

Lemma append_cons (c : ascii) (a b : string) :
  String c a +:+ b = String c (a +:+ b).
Proof. reflexivity. Qed.

Lemma append_nil_l (a : string) : "" +:+ a = a.
Proof. reflexivity. Qed.

Lemma append_nil_r (a : string) : a +:+ "" = a.
Proof. induction a as [|c a IH]; [done|]. by rewrite append_cons, IH. Qed.

Lemma append_assoc (a b c : string) : (a +:+ b) +:+ c = a +:+ (b +:+ c).
Proof.
  induction a as [|x a IH]; [done|]. by rewrite !append_cons, IH.
Qed.

Lemma chars_append (a b : string) : chars (a +:+ b) = chars a ++ chars b.
Proof.
  induction a as [|x a IH]; [done|].
  rewrite append_cons. unfold chars in *. simpl. by rewrite IH.
Qed.

Lemma length_append (a b : string) :
  String.length (a +:+ b) = (String.length a + String.length b)%nat.
Proof.
  induction a as [|x a IH]; [done|].
  rewrite append_cons. simpl. by rewrite IH.
Qed.

Lemma concat_lines_app (l1 l2 : list string) :
  concat_lines (l1 ++ l2) = concat_lines l1 +:+ concat_lines l2.
Proof.
  induction l1 as [|x l1 IH]; simpl; [done|].
  by rewrite IH, append_assoc.
Qed.

Lemma concat_lines_elem (x : string) (ls : list string) :
  x ∈ ls -> exists pre post : string, concat_lines ls = pre +:+ x +:+ post.
Proof.
  intros Hx. apply list_elem_of_split in Hx as (l1 & l2 & ->).
  exists (concat_lines l1), (concat_lines l2).
  by rewrite concat_lines_app.
Qed.

Lemma range_order_lookup (form : Form) it key v :
  range_order form it -> form !! key = Some v -> (key, v) ∈ it.
Proof.
  unfold range_order. intros Hit Hk. rewrite Hit.
  by apply elem_of_map_to_list.
Qed.

Lemma range_order_entry (form : Form) it key v :
  range_order form it -> form !! key = Some v ->
  fieldEntry key v ∈ fieldEntries it.
Proof.
  intros Hit Hk. unfold fieldEntries.
  apply (list_elem_of_fmap_2 (fun kv => fieldEntry kv.1 kv.2) it (key, v)).
  eauto using range_order_lookup.
Qed.

Lemma range_order_keys (form : Form) it :
  range_order form it ->
  NoDup it.*1 /\ (forall key, key ∈ it.*1 <-> is_Some (form !! key)).
Proof.
  unfold range_order. intros Hit. split.
  - rewrite Hit. apply NoDup_fst_map_to_list.
  - intros key. rewrite Hit. rewrite list_elem_of_fmap. split.
    + intros ([k v] & -> & Hin). apply elem_of_map_to_list in Hin. eauto.
    + intros [v Hv]. exists (key, v). split; [done|].
      by apply elem_of_map_to_list.
Qed.

Lemma range_order_length (form : Form) it :
  range_order form it -> length (fieldEntries it) = size form.
Proof.
  unfold range_order, fieldEntries. intros Hit.
  by rewrite length_fmap, Hit, length_map_to_list.
Qed.

(** A field of the form shows up in the text of either encoder, between
    the header line and the footer line. *)
Lemma fdfText_entry header footer (form : Form) it key v :
  range_order form it -> form !! key = Some v ->
  exists pre post : string,
    fdfText header footer it =
      (header +:+ LF) +:+ (pre +:+ fieldEntry key v +:+ post) +:+ (footer +:+ LF).
Proof.
  intros Hit Hk.
  destruct (concat_lines_elem _ _ (range_order_entry _ _ _ _ Hit Hk))
    as (pre & post & E).
  exists pre, post. unfold fdfText. by rewrite E.
Qed.

(** C1: a boolean field is written as [Yes] when true and as [Off] when
    false, in the [/V (...)] slot of its entry, by both encoders. *)
Theorem C1_bool_yes_off (form : Form) (it : list (string * value))
    (key : string) (b : bool) :
  range_order form it ->
  form !! key = Some (VBool b) ->
  let line := "<< /T (" +:+ key +:+ ") /V (" +:+ (if b then "Yes" else "Off")
              +:+ ")>>" +:+ LF in
  valStr (VBool true) = "Yes" /\ valStr (VBool false) = "Off" /\
  fieldEntry key (VBool b) = line /\
  line ∈ fieldEntries it /\
  (exists pre post : string,
     part_000.createFdfFile it =
       (part_000.fdfHeader +:+ LF) +:+ (pre +:+ line +:+ post)
         +:+ (part_000.fdfFooter +:+ LF)) /\
  (exists pre post : string,
     fillpdf_go.fdfContent it =
       (fillpdf_go.fdfHeader +:+ LF) +:+ (pre +:+ line +:+ post)
         +:+ (fillpdf_go.fdfFooter +:+ LF)).
Proof.
  intros Hit Hk line.
  assert (E : fieldEntry key (VBool b) = line) by (by destruct b).
  split_and!; try done.
  - rewrite <- E. eauto using range_order_entry.
  - rewrite <- E. eapply fdfText_entry; eauto.
  - rewrite <- E. eapply fdfText_entry; eauto.
Qed.

Lemma C1_bool_yes_off_witness :
  range_order alice (map_to_list alice) /\
  alice !! "Subscribed" = Some (VBool true) /\
  "<< /T (Subscribed) /V (Yes)>>" +:+ LF ∈ fieldEntries (map_to_list alice).
Proof.
  assert (H1 : range_order alice (map_to_list alice))
    by (unfold range_order; reflexivity).
  assert (H2 : alice !! "Subscribed" = Some (VBool true)) by reflexivity.
  split; [exact H1|]. split; [exact H2|].
  destruct (C1_bool_yes_off alice (map_to_list alice) "Subscribed" true H1 H2)
    as (_ & _ & _ & H & _).
  exact H.
Defined.

Lemma concat_lines_library (ls : list string) :
  concat_lines ls = String.concat "" ls.
Proof.
  induction ls as [|x [|y ls] IH]; [done| |].
  - simpl. apply append_nil_r.
  - change (concat_lines (x :: y :: ls)) with (x +:+ concat_lines (y :: ls)).
    by rewrite IH.
Qed.

Lemma fieldEntry_length (key : string) (v : value) :
  String.length (fieldEntry key v) =
    (String.length key + String.length (valStr v) + 17)%nat.
Proof.
  unfold fieldEntry. rewrite !length_append. unfold LF. simpl. lia.
Qed.

Lemma fieldEntries_length (it : list (string * value)) :
  String.length (concat_lines (fieldEntries it)) =
    sum_list_with
      (fun kv => (String.length kv.1 + String.length (valStr kv.2) + 17)%nat) it.
Proof.
  induction it as [|[k v] it IH]; [done|].
  change (concat_lines (fieldEntries ((k, v) :: it)))
    with (fieldEntry k v +:+ concat_lines (fieldEntries it)).
  rewrite length_append, fieldEntry_length, IH. reflexivity.
Qed.

(** C3: the text of either encoder is the header line, a body and the
    footer line.  The body is the entries written one after the other: it
    holds the line [<< /T (name) /V (value)>>] of every key of the form,
    and its length is the sum of the lengths of these lines, one per key,
    so it holds nothing else; the names written are the keys of the form,
    each once.  The header declares FDF 1.2 and opens the [Fields] array;
    the footer closes array, dictionaries and object and ends with the
    trailer that names object 1 as root and [%%EOF].  For the form
    [{"Name": "Alice", "Subscribed": true, "Age": 30.0}] the text holds
    the three lines of the scenario between header and footer, whatever
    the order of the range, and nothing more. *)
Theorem C3_envelope (form : Form) (it : list (string * value)) :
  range_order form it ->
  (* the text of both encoders: header line, body, footer line *)
  (exists body : string,
     part_000.createFdfFile it =
       (part_000.fdfHeader +:+ LF) +:+ body +:+ (part_000.fdfFooter +:+ LF) /\
     fillpdf_go.fdfContent it =
       (fillpdf_go.fdfHeader +:+ LF) +:+ body +:+ (fillpdf_go.fdfFooter +:+ LF) /\
     body = String.concat "" (fieldEntries it) /\
     String.length body =
       sum_list_with
         (fun kv => (String.length kv.1 + String.length (valStr kv.2) + 17)%nat)
         (map_to_list form) /\
     (forall key v, form !! key = Some v ->
        exists pre post : string,
          body = pre +:+ ("<< /T (" +:+ key +:+ ") /V (" +:+ valStr v +:+ ")>>"
                          +:+ LF) +:+ post)) /\
  (* the fixed blocks *)
  fillpdf_go.fdfHeader =
    "%FDF-1.2" +:+ LF +:+ "%,,oe" +:+ DQUOTE +:+ LF +:+ "1 0 obj" +:+ LF
      +:+ "<<" +:+ LF +:+ "/FDF << /Fields [" /\
  fillpdf_go.fdfFooter =
    "]" +:+ LF +:+ ">>" +:+ LF +:+ ">>" +:+ LF +:+ "endobj" +:+ LF
      +:+ "trailer" +:+ LF +:+ "<<" +:+ LF +:+ "/Root 1 0 R" +:+ LF
      +:+ ">>" +:+ LF +:+ "%%EOF" /\
  part_000.fdfHeader =
    "%FDF-1.2" +:+ LF +:+ " %,,oe" +:+ DQUOTE +:+ LF +:+ " 1 0 obj" +:+ LF
      +:+ " <<" +:+ LF +:+ " /FDF << /Fields [" /\
  part_000.fdfFooter =
    "]" +:+ LF +:+ " >>" +:+ LF +:+ " >>" +:+ LF +:+ " endobj" +:+ LF
      +:+ " trailer" +:+ LF +:+ " <<" +:+ LF +:+ " /Root 1 0 R" +:+ LF
      +:+ " >>" +:+ LF +:+ " %%EOF" /\
  (* exactly one entry per key *)
  fieldEntries it =
    (fun kv => "<< /T (" +:+ kv.1 +:+ ") /V (" +:+ valStr kv.2 +:+ ")>>" +:+ LF)
      <$> it /\
  length (fieldEntries it) = size form /\
  NoDup it.*1 /\
  (forall key, key ∈ it.*1 <-> is_Some (form !! key)) /\
  (forall key v, form !! key = Some v -> fieldEntry key v ∈ fieldEntries it) /\
  (* the scenario *)
  (form = alice ->
   String.length (part_000.createFdfFile it) = (104 + (26 + 30 + 22))%nat /\
   String.length (fillpdf_go.fdfContent it) = (92 + (26 + 30 + 22))%nat /\
   (forall line : string,
      line ∈ ["<< /T (Name) /V (Alice)>>" +:+ LF;
              "<< /T (Subscribed) /V (Yes)>>" +:+ LF;
              "<< /T (Age) /V (30)>>" +:+ LF] ->
      line ∈ fieldEntries it /\
      exists pre post : string,
        part_000.createFdfFile it =
          (part_000.fdfHeader +:+ LF) +:+ (pre +:+ line +:+ post)
            +:+ (part_000.fdfFooter +:+ LF) /\
        fillpdf_go.fdfContent it =
          (fillpdf_go.fdfHeader +:+ LF) +:+ (pre +:+ line +:+ post)
            +:+ (fillpdf_go.fdfFooter +:+ LF))).
Proof.
  intros Hit.
  destruct (range_order_keys _ _ Hit) as [Hnd Hkeys].
  assert (Hlen : String.length (concat_lines (fieldEntries it)) =
            sum_list_with
              (fun kv => (String.length kv.1 + String.length (valStr kv.2) + 17)%nat)
              (map_to_list form)).
  { rewrite fieldEntries_length. unfold range_order in Hit. by rewrite Hit. }
  split_and!.
  - exists (concat_lines (fieldEntries it)). split_and!.
    + reflexivity.
    + reflexivity.
    + apply concat_lines_library.
    + exact Hlen.
    + intros key v Hk.
      exact (concat_lines_elem _ _ (range_order_entry _ _ _ _ Hit Hk)).
  - reflexivity.
  - reflexivity.
  - reflexivity.
  - reflexivity.
  - reflexivity.
  - by apply range_order_length.
  - exact Hnd.
  - exact Hkeys.
  - eauto using range_order_entry.
  - intros ->.
    assert (Hbody : String.length (concat_lines (fieldEntries it)) =
                      (26 + 30 + 22)%nat).
    { rewrite Hlen. vm_compute. reflexivity. }
    split_and!.
    + unfold part_000.createFdfFile, fdfText. rewrite !length_append, Hbody.
      reflexivity.
    + unfold fillpdf_go.fdfContent, fdfText. rewrite !length_append, Hbody.
      reflexivity.
    + intros line Hline.
      assert (Hin : line ∈ fieldEntries it).
      { assert (E : "<< /T (Age) /V (30)>>" +:+ LF =
                    fieldEntry "Age" (VFloat64 bits_30))
          by (vm_compute; reflexivity).
        apply list_elem_of_In in Hline.
        destruct Hline as [<-|[<-|[<-|[]]]].
        - apply (range_order_entry alice it "Name" (VString "Alice") Hit).
          reflexivity.
        - apply (range_order_entry alice it "Subscribed" (VBool true) Hit).
          reflexivity.
        - rewrite E.
          apply (range_order_entry alice it "Age" (VFloat64 bits_30) Hit).
          reflexivity. }
      split; [exact Hin|].
      destruct (concat_lines_elem _ _ Hin) as (pre & post & E).
      exists pre, post.
      unfold part_000.createFdfFile, fillpdf_go.fdfContent, fdfText.
      rewrite E. split; reflexivity.
Qed.

Lemma C3_envelope_witness :
  range_order alice (map_to_list alice) /\
  String.length (part_000.createFdfFile (map_to_list alice)) = 182%nat /\
  exists pre post : string,
    part_000.createFdfFile (map_to_list alice) =
      (part_000.fdfHeader +:+ LF)
        +:+ (pre +:+ ("<< /T (Age) /V (30)>>" +:+ LF) +:+ post)
        +:+ (part_000.fdfFooter +:+ LF).
Proof.
  assert (H1 : range_order alice (map_to_list alice))
    by (unfold range_order; reflexivity).
  split; [exact H1|].
  destruct (C3_envelope alice (map_to_list alice) H1)
    as (_ & _ & _ & _ & _ & _ & _ & _ & _ & _ & H).
  destruct (H eq_refl) as (Hlen & _ & Hlines).
  split; [exact Hlen|].
  destruct (Hlines ("<< /T (Age) /V (30)>>" +:+ LF)) as (_ & pre & post & E & _).
  - apply list_elem_of_further, list_elem_of_further, list_elem_of_here.
  - exists pre, post. exact E.
Defined.

(** C4: names and values are copied byte for byte: the entry of a text
    value is the name and the value between the fixed pieces, whatever
    bytes they hold (parentheses and backslashes included), and the empty
    name gives [<< /T () /V (value)>>]; no form is rejected. *)
Theorem C4_verbatim (form : Form) (it : list (string * value))
    (key s : string) :
  range_order form it ->
  form !! key = Some (VString s) ->
  fieldEntry key (VString s) =
    "<< /T (" +:+ key +:+ ") /V (" +:+ s +:+ ")>>" +:+ LF /\
  String.length (fieldEntry key (VString s)) =
    (String.length key + String.length s + 17)%nat /\
  fieldEntry key (VString s) ∈ fieldEntries it /\
  (exists pre post : string,
     part_000.createFdfFile it =
       (part_000.fdfHeader +:+ LF)
         +:+ (pre +:+ ("<< /T (" +:+ key +:+ ") /V (" +:+ s +:+ ")>>" +:+ LF)
              +:+ post)
         +:+ (part_000.fdfFooter +:+ LF)) /\
  (exists pre post : string,
     fillpdf_go.fdfContent it =
       (fillpdf_go.fdfHeader +:+ LF)
         +:+ (pre +:+ ("<< /T (" +:+ key +:+ ") /V (" +:+ s +:+ ")>>" +:+ LF)
              +:+ post)
         +:+ (fillpdf_go.fdfFooter +:+ LF)) /\
  fieldEntry "a(b)\c" (VString "x)\(y") =
    "<< /T (a(b)\c) /V (x)\(y)>>" +:+ LF /\
  (forall v, fieldEntry "" v = "<< /T () /V (" +:+ valStr v +:+ ")>>" +:+ LF).
Proof.
  intros Hit Hk. split_and!; try done.
  - unfold fieldEntry. simpl valStr.
    rewrite !length_append. unfold LF. simpl. lia.
  - eauto using range_order_entry.
  - exact (fdfText_entry _ _ _ _ _ _ Hit Hk).
  - exact (fdfText_entry _ _ _ _ _ _ Hit Hk).
Qed.

Lemma C4_verbatim_witness :
  let form : Form := <["" := VString "(\)"]> ∅ in
  range_order form (map_to_list form) /\
  form !! "" = Some (VString "(\)") /\
  "<< /T () /V ((\))>>" +:+ LF ∈ fieldEntries (map_to_list form).
Proof.
  intros form.
  assert (H1 : range_order form (map_to_list form))
    by (unfold range_order; reflexivity).
  assert (H2 : form !! "" = Some (VString "(\)")) by reflexivity.
  split; [exact H1|]. split; [exact H2|].
  destruct (C4_verbatim form (map_to_list form) "" "(\)" H1 H2)
    as (_ & _ & H & _).
  exact H.
Defined.

(** C5: two encodings of one form differ at most in the order of the
    entries: header and footer are the same and the entry lines of one
    are a permutation of those of the other (so the texts have the same
    length); with the same order the texts are equal. *)
Theorem C5_same_lines (form : Form) (it1 it2 : list (string * value)) :
  range_order form it1 ->
  range_order form it2 ->
  fieldEntries it1 ≡ₚ fieldEntries it2 /\
  part_000.createFdfFile it1 =
    (part_000.fdfHeader +:+ LF) +:+ concat_lines (fieldEntries it1)
      +:+ (part_000.fdfFooter +:+ LF) /\
  part_000.createFdfFile it2 =
    (part_000.fdfHeader +:+ LF) +:+ concat_lines (fieldEntries it2)
      +:+ (part_000.fdfFooter +:+ LF) /\
  fillpdf_go.fdfContent it1 =
    (fillpdf_go.fdfHeader +:+ LF) +:+ concat_lines (fieldEntries it1)
      +:+ (fillpdf_go.fdfFooter +:+ LF) /\
  fillpdf_go.fdfContent it2 =
    (fillpdf_go.fdfHeader +:+ LF) +:+ concat_lines (fieldEntries it2)
      +:+ (fillpdf_go.fdfFooter +:+ LF) /\
  String.length (part_000.createFdfFile it1) =
    String.length (part_000.createFdfFile it2) /\
  String.length (fillpdf_go.fdfContent it1) =
    String.length (fillpdf_go.fdfContent it2) /\
  (it1 = it2 ->
   part_000.createFdfFile it1 = part_000.createFdfFile it2 /\
   fillpdf_go.fdfContent it1 = fillpdf_go.fdfContent it2).
Proof.
  intros H1 H2.
  assert (Hp : fieldEntries it1 ≡ₚ fieldEntries it2).
  { unfold fieldEntries. apply fmap_Permutation.
    unfold range_order in *. by rewrite H1, H2. }
  assert (Hl : String.length (concat_lines (fieldEntries it1)) =
               String.length (concat_lines (fieldEntries it2))).
  { clear H1 H2. induction Hp as [|x l l' _ IH|x y l|l l' l'' _ IH1 _ IH2];
      simpl; rewrite ?length_append in *; lia. }
  split_and!; try done.
  - unfold part_000.createFdfFile, fdfText. rewrite !length_append. lia.
  - unfold fillpdf_go.fdfContent, fdfText. rewrite !length_append. lia.
  - by intros ->.
Qed.

Lemma C5_same_lines_witness :
  range_order alice (map_to_list alice) /\
  range_order alice (reverse (map_to_list alice)) /\
  fieldEntries (map_to_list alice) ≡ₚ fieldEntries (reverse (map_to_list alice)).
Proof.
  assert (H1 : range_order alice (map_to_list alice))
    by (unfold range_order; reflexivity).
  assert (H2 : range_order alice (reverse (map_to_list alice)))
    by (unfold range_order; apply reverse_Permutation).
  split; [exact H1|]. split; [exact H2|].
  destruct (C5_same_lines alice _ _ H1 H2) as (H & _).
  exact H.
Defined.

(** C10: for the empty form the in-memory encoder returns the header
    line directly followed by the footer line, which is not empty; and
    the encoder returns a text, never an error, for every form. *)
Theorem C10_empty_form (it : list (string * value)) :
  range_order ∅ it ->
  it = [] /\
  fieldEntries it = [] /\
  part_000.createFdfFile it =
    (part_000.fdfHeader +:+ LF) +:+ (part_000.fdfFooter +:+ LF) /\
  part_000.createFdfFile it <> "" /\
  String.length (part_000.createFdfFile it) = 104%nat /\
  (forall (form : Form) (it' : list (string * value)),
     range_order form it' ->
     exists out : string,
       part_000.createFdfFile it' = out /\
       (104 <= String.length out)%nat) /\
  (forall form : Form, exists it' : list (string * value), range_order form it').
Proof.
  intros Hit.
  assert (E : it = []).
  { unfold range_order in Hit. rewrite map_to_list_empty in Hit.
    by apply Permutation_nil_r. }
  subst it. split_and!; try done.
  - intros form it' _. eexists. split; [reflexivity|].
    unfold part_000.createFdfFile, fdfText. rewrite !length_append.
    change (String.length part_000.fdfHeader) with 48%nat.
    change (String.length part_000.fdfFooter) with 54%nat.
    change (String.length LF) with 1%nat. lia.
  - intros form. exists (map_to_list form). by unfold range_order.
Qed.

Lemma C10_empty_form_witness :
  range_order (∅ : Form) [] /\
  part_000.createFdfFile [] =
    (part_000.fdfHeader +:+ LF) +:+ (part_000.fdfFooter +:+ LF).
Proof.
  assert (H1 : range_order (∅ : Form) [])
    by (unfold range_order; reflexivity).
  split; [exact H1|].
  destruct (C10_empty_form [] H1) as (_ & _ & H & _).
  exact H.
Defined.

(** ** The form filler *)

(** Unfold an operation down to the answers of the system. *)
Ltac unfold_ops :=
  unfold fillpdf_go.Fill, fillpdf_go.createFdfFile, fillpdf_go.runCommandInPath,
    fillpdf_go.removeTmpDir, fillpdf_go.pdftkArgs,
    part_000.Fill, part_000.FillFromReader, part_000.pdftkOutput,
    bind, wrap, replace_err, defer, ret, fail,
    Abs, exists_, LookPath, TempDir, CreateTemp, Create, Write, Output, of_error.

(** Decide the next answer the goal depends on, in program order. *)
Ltac answer :=
  match goal with
  | |- context [os_Abs ?o ?p] => destruct (os_Abs o p) eqn:?
  | |- context [os_Stat ?o ?p] => destruct (os_Stat o p) eqn:?
  | |- context [os_IsNotExist ?o ?e] => destruct (os_IsNotExist o e) eqn:?
  | |- context [os_LookPath ?o ?f] => destruct (os_LookPath o f) eqn:?
  | |- context [os_TempDir ?o ?d ?p] => destruct (os_TempDir o d p) eqn:?
  | |- context [os_CreateTemp ?o ?d ?p] => destruct (os_CreateTemp o d p) eqn:?
  | |- context [os_Create ?o ?p] => destruct (os_Create o p) eqn:?
  | |- context [os_Write ?o ?p ?d] => destruct (os_Write o p d) eqn:?
  | |- context [os_Run ?o ?d ?n ?a ?i] =>
      let out := fresh "out" in let err := fresh "err" in
      destruct (os_Run o d n a i) as [out [err|]] eqn:?
  | |- context [os_RemoveAll ?o ?p] => destruct (os_RemoveAll o p) eqn:?
  | |- context [os_Remove ?o ?p] => destruct (os_Remove o p) eqn:?
  end; cbn [fst snd negb app].

Ltac case_answers :=
  unfold_ops; unfold with_removal;
  cbn [fst snd negb app os_Abs os_Clean os_Stat os_IsNotExist os_LookPath
       os_TempDir os_CreateTemp os_Create os_Write os_RemoveAll os_Remove
       os_Run os_Stderr];
  repeat answer.

(** C6: when the resolved template path does not exist, both revisions of
    [Fill] return the not-found error after nothing but the path
    resolution and the [os.Stat]: no call that writes.  When [os.Stat]
    fails for another reason the error is the access error, a different
    message for every path and cause. *)
Theorem C6_template_not_found (os : OS) (it : list (string * value))
    (path resolved e : string) :
  os_Abs os path = Ok resolved ->
  os_Stat os resolved = Some e ->
  os_IsNotExist os e = true ->
  part_000.Fill os it path =
    (Err ("form PDF file does not exist: '" +:+ resolved +:+ "'"),
     [EAbs path (Ok resolved); EStat resolved (Some e)]) /\
  fillpdf_go.Fill os it path =
    (Err ("form PDF file does not exists: '" +:+ resolved +:+ "'"),
     [EAbs path (Ok resolved); EStat resolved (Some e)]) /\
  filter writes_fs (part_000.Fill os it path).2 = [] /\
  filter writes_fs (fillpdf_go.Fill os it path).2 = [] /\
  (forall (os' : OS) (e' : string),
     os_Abs os' path = Ok resolved ->
     os_Stat os' resolved = Some e' ->
     os_IsNotExist os' e' = false ->
     (part_000.Fill os' it path).1 =
       Err ("failed to check if form PDF file exists: " +:+ e') /\
     (fillpdf_go.Fill os' it path).1 =
       Err ("failed to check if form PDF file exists: " +:+ e') /\
     (part_000.Fill os' it path).1 <> (part_000.Fill os it path).1 /\
     (fillpdf_go.Fill os' it path).1 <> (fillpdf_go.Fill os it path).1).
Proof.
  intros HA HS HN.
  assert (E1 : part_000.Fill os it path =
    (Err ("form PDF file does not exist: '" +:+ resolved +:+ "'"),
     [EAbs path (Ok resolved); EStat resolved (Some e)])).
  { unfold_ops. rewrite HA, HS, HN. reflexivity. }
  assert (E2 : fillpdf_go.Fill os it path =
    (Err ("form PDF file does not exists: '" +:+ resolved +:+ "'"),
     [EAbs path (Ok resolved); EStat resolved (Some e)])).
  { unfold_ops. rewrite HA, HS, HN. reflexivity. }
  rewrite E1, E2. split_and!; try done.
  intros os' e' HA' HS' HN'.
  assert (E3 : (part_000.Fill os' it path).1 =
                 Err ("failed to check if form PDF file exists: " +:+ e')).
  { unfold_ops. rewrite HA', HS', HN'. reflexivity. }
  assert (E4 : (fillpdf_go.Fill os' it path).1 =
                 Err ("failed to check if form PDF file exists: " +:+ e')).
  { unfold_ops. rewrite HA', HS', HN'. reflexivity. }
  rewrite E3, E4. cbn [fst]. split_and!; done.
Qed.

Lemma C6_template_not_found_witness :
  os_Abs os_bare "/t.pdf" = Ok "/t.pdf" /\
  os_Stat os_bare "/t.pdf" = Some "no such file or directory" /\
  os_IsNotExist os_bare "no such file or directory" = true /\
  part_000.Fill os_bare (map_to_list alice) "/t.pdf" =
    (Err ("form PDF file does not exist: '" +:+ "/t.pdf" +:+ "'"),
     [EAbs "/t.pdf" (Ok "/t.pdf");
      EStat "/t.pdf" (Some "no such file or directory")]).
Proof.
  assert (H1 : os_Abs os_bare "/t.pdf" = Ok "/t.pdf") by reflexivity.
  assert (H2 : os_Stat os_bare "/t.pdf" = Some "no such file or directory")
    by reflexivity.
  assert (H3 : os_IsNotExist os_bare "no such file or directory" = true)
    by reflexivity.
  split; [exact H1|]. split; [exact H2|]. split; [exact H3|].
  destruct (C6_template_not_found os_bare (map_to_list alice)
              "/t.pdf" "/t.pdf" "no such file or directory" H1 H2 H3)
    as (H & _).
  exact H.
Defined.

(** C7, as the code has it: without pdftk on the search path
    [FillFromReader] returns the tool-missing error after the look-up
    alone, and [Fill] does once the template path resolved and the file
    exists (the earlier checks come first and have their own errors); in
    no case is a temporary directory or file asked for or a file created. *)
Theorem C7_tool_missing (os : OS) (it : list (string * value))
    (e : string) :
  os_LookPath os "pdftk" = Err e ->
  (forall pdfFile,
     part_000.FillFromReader os it pdfFile =
       (Err "pdftk utility is not installed!", [ELookPath "pdftk" (Err e)])) /\
  (forall path resolved,
     os_Abs os path = Ok resolved ->
     os_Stat os resolved = None ->
     part_000.Fill os it path =
       (Err "pdftk utility is not installed!",
        [EAbs path (Ok resolved); EStat resolved None;
         ELookPath "pdftk" (Err e)]) /\
     fillpdf_go.Fill os it path =
       (Err "pdftk utility is not installed!",
        [EAbs path (Ok resolved); EStat resolved None;
         ELookPath "pdftk" (Err e)])) /\
  (forall path,
     filter creates_temp (part_000.Fill os it path).2 = [] /\
     filter creates_temp (fillpdf_go.Fill os it path).2 = [] /\
     areas_created (part_000.Fill os it path).2 = [] /\
     areas_created (fillpdf_go.Fill os it path).2 = []) /\
  (forall pdfFile,
     filter creates_temp (part_000.FillFromReader os it pdfFile).2 = [] /\
     areas_created (part_000.FillFromReader os it pdfFile).2 = []).
Proof.
  intros HL. split_and!.
  - intros pdfFile. unfold_ops. rewrite HL. reflexivity.
  - intros path resolved HA HS. split.
    + unfold_ops. rewrite HA, HS, HL. reflexivity.
    + unfold_ops. rewrite HA, HS, HL. reflexivity.
  - intros path. unfold_ops.
    destruct (os_Abs os path) as [resolved|ea]; [|done].
    destruct (os_Stat os resolved) as [es|].
    + destruct (os_IsNotExist os es); done.
    + rewrite HL. done.
  - intros pdfFile. unfold_ops. rewrite HL. done.
Qed.

Lemma C7_tool_missing_witness :
  os_LookPath os_bare "pdftk" = Err "executable file not found in $PATH" /\
  part_000.FillFromReader os_bare (map_to_list alice) "%PDF" =
    (Err "pdftk utility is not installed!",
     [ELookPath "pdftk" (Err "executable file not found in $PATH")]).
Proof.
  assert (H1 : os_LookPath os_bare "pdftk" =
               Err "executable file not found in $PATH") by reflexivity.
  split; [exact H1|].
  destruct (C7_tool_missing os_bare (map_to_list alice) _ H1) as (H & _).
  exact (H "%PDF").
Defined.

(** C7 as stated fails: with neither pdftk nor the template present,
    [Fill] reports the missing template, not the missing tool. *)
Lemma C7_counterexample :
  ~ (forall (os : OS) (it : list (string * value)) (path pdfFile e : string),
       os_LookPath os "pdftk" = Err e ->
       (part_000.Fill os it path).1 = Err "pdftk utility is not installed!" /\
       (fillpdf_go.Fill os it path).1 = Err "pdftk utility is not installed!" /\
       (part_000.FillFromReader os it pdfFile).1 =
         Err "pdftk utility is not installed!").
Proof.
  intros H.
  destruct (H os_bare [] "/t.pdf" "%PDF" "executable file not found in $PATH"
              eq_refl) as (H1 & _).
  vm_compute in H1. discriminate H1.
Qed.

(** C8, as the code has it: once the template path resolved, the file
    exists and pdftk was found, [Fill] of [src/fillpdf.go] asks
    [ioutil.TempDir] for a directory named after the pattern [fillpdf-];
    given the directory it creates [data.fdf] inside it, writes the
    encoded form there and runs pdftk in that directory with the template
    path, [fill_form] and the path of that file, [output -].  [Fill] of
    the second source file creates no directory or file: it runs pdftk
    without a working directory, with [fill_form -] and the encoded form
    on standard input. *)
Theorem C8_fill_by_path (os : OS) (it : list (string * value))
    (path resolved tool : string) :
  os_Abs os path = Ok resolved ->
  os_Stat os resolved = None ->
  os_LookPath os "pdftk" = Ok tool ->
  let validated :=
    [EAbs path (Ok resolved); EStat resolved None; ELookPath "pdftk" (Ok tool)] in
  (* src/fillpdf.go *)
  (forall tmpDir : string,
     os_TempDir os "" "fillpdf-" = Ok tmpDir ->
     let fdfFile := os_Clean os (tmpDir +:+ "/data.fdf") in
     let args := [resolved; "fill_form"; fdfFile; "output"; "-"] in
     (exists rest,
        (fillpdf_go.Fill os it path).2 =
          validated ++ ETempDir "" "fillpdf-" (Ok tmpDir)
            :: ECreate fdfFile (os_Create os fdfFile) :: rest) /\
     (os_Create os fdfFile = None ->
      os_Write os fdfFile (fillpdf_go.fdfContent it) = None ->
      exists r,
        (fillpdf_go.Fill os it path).2 =
          validated ++
          [ETempDir "" "fillpdf-" (Ok tmpDir);
           ECreate fdfFile None;
           EWrite fdfFile (fillpdf_go.fdfContent it) None;
           EClose fdfFile;
           ERun (Some tmpDir) "pdftk" args StdinNone r]
          ++ fillpdf_go.removeTmpDir os tmpDir /\
        (fillpdf_go.Fill os it path).1 =
          match r with
          | Ok out => Ok out
          | Err e => Err ("pdftk error: " +:+ e)
          end)) /\
  (forall e : string,
     os_TempDir os "" "fillpdf-" = Err e ->
     fillpdf_go.Fill os it path =
       (Err ("failed to create temporary directory: " +:+ e),
        validated ++ [ETempDir "" "fillpdf-" (Err e)])) /\
  (* the second source file *)
  (exists r,
     (part_000.Fill os it path).2 =
       validated ++
       [ERun None "pdftk" [resolved; "fill_form"; "-"; "output"; "-"]
          (StdinBytes (part_000.createFdfFile it)) r] /\
     (part_000.Fill os it path).1 =
       match r with
       | Ok out => Ok out
       | Err e => Err ("pdftk error: " +:+ e)
       end) /\
  filter creates_temp (part_000.Fill os it path).2 = [] /\
  areas_created (part_000.Fill os it path).2 = [].
Proof.
  intros HA HS HL validated. subst validated. split_and!.
  - intros tmpDir HT fdfFile args. subst fdfFile args. split.
    + unfold_ops. rewrite HA, HS, HL, HT. cbn [fst snd negb app].
      repeat answer; eexists; reflexivity.
    + intros HC HW. unfold_ops. rewrite HA, HS, HL, HT, HC, HW.
      cbn [fst snd negb app].
      repeat answer; eexists; split; reflexivity.
  - intros e HT. unfold_ops. rewrite HA, HS, HL, HT. reflexivity.
  - unfold_ops. rewrite HA, HS, HL. cbn [fst snd negb app].
    repeat answer; eexists; split; reflexivity.
  - unfold_ops. rewrite HA, HS, HL. cbn [fst snd negb app].
    repeat answer; reflexivity.
  - unfold_ops. rewrite HA, HS, HL. cbn [fst snd negb app].
    repeat answer; reflexivity.
Qed.

Lemma C8_fill_by_path_witness :
  os_Abs os_ok "/t.pdf" = Ok "/t.pdf" /\
  os_Stat os_ok "/t.pdf" = None /\
  os_LookPath os_ok "pdftk" = Ok "/usr/bin/pdftk" /\
  fillpdf_go.Fill os_ok (map_to_list alice) "/t.pdf" =
    (Ok "%PDF-filled",
     [EAbs "/t.pdf" (Ok "/t.pdf"); EStat "/t.pdf" None;
      ELookPath "pdftk" (Ok "/usr/bin/pdftk");
      ETempDir "" "fillpdf-" (Ok "/tmp/fillpdf-1");
      ECreate "/tmp/fillpdf-1/data.fdf" None;
      EWrite "/tmp/fillpdf-1/data.fdf"
        (fillpdf_go.fdfContent (map_to_list alice)) None;
      EClose "/tmp/fillpdf-1/data.fdf";
      ERun (Some "/tmp/fillpdf-1") "pdftk"
        ["/t.pdf"; "fill_form"; "/tmp/fillpdf-1/data.fdf"; "output"; "-"]
        StdinNone (Ok "%PDF-filled");
      ERemoveAll "/tmp/fillpdf-1" None]).
Proof.
  assert (H1 : os_Abs os_ok "/t.pdf" = Ok "/t.pdf") by reflexivity.
  assert (H2 : os_Stat os_ok "/t.pdf" = None) by reflexivity.
  assert (H3 : os_LookPath os_ok "pdftk" = Ok "/usr/bin/pdftk") by reflexivity.
  split; [exact H1|]. split; [exact H2|]. split; [exact H3|].
  destruct (C8_fill_by_path os_ok (map_to_list alice) "/t.pdf" "/t.pdf"
              "/usr/bin/pdftk" H1 H2 H3) as (H & _).
  destruct (H "/tmp/fillpdf-1" eq_refl) as (_ & H').
  destruct (H' eq_refl eq_refl) as (r & Ht & Hr).
  reflexivity.
Defined.

(** C8 as stated fails on the second source file: after a successful
    validation its [Fill] asks for no temporary directory or file. *)
Lemma C8_counterexample :
  ~ (forall (os : OS) (it : list (string * value)) (path resolved tool : string),
       os_Abs os path = Ok resolved ->
       os_Stat os resolved = None ->
       os_LookPath os "pdftk" = Ok tool ->
       exists (tmpDir fdfFile : string) (r : res string),
         ETempDir "" "fillpdf-" (Ok tmpDir) ∈ (part_000.Fill os it path).2 /\
         ERun (Some tmpDir) "pdftk" [resolved; "fill_form"; fdfFile; "output"; "-"]
              StdinNone r ∈ (part_000.Fill os it path).2).
Proof.
  intros H.
  destruct (H os_ok [] "/t.pdf" "/t.pdf" "/usr/bin/pdftk" eq_refl eq_refl eq_refl)
    as (tmpDir & fdfFile & r & H1 & _).
  vm_compute in H1.
  repeat (apply elem_of_cons in H1 as [H1|H1]; [discriminate H1|]).
  by apply elem_of_nil in H1.
Qed.

(** C9, as the code has it: each of the three operations creates at most
    one transient area; the trace is some calls that remove nothing
    followed by the removal of every area created, so an area is removed
    exactly once, last, whatever the result; the answers to the removal
    calls never change the result.  [Fill] of [src/fillpdf.go] logs a
    failed removal (and logs nothing else); [FillFromReader] drops the
    error of [os.Remove] without a log; [Fill] of the second source file
    has nothing to remove. *)
Theorem C9_cleanup (os : OS) (it : list (string * value))
    (path pdfFile : string) :
  let t1 := (fillpdf_go.Fill os it path).2 in
  let t2 := (part_000.FillFromReader os it pdfFile).2 in
  let t3 := (part_000.Fill os it path).2 in
  ((length (areas_created t1) <= 1)%nat /\
   areas_removed t1 = areas_created t1 /\
   exists t0,
     t1 = t0 ++ concat (map (fillpdf_go.removeTmpDir os) (areas_created t1)) /\
     areas_removed t0 = []) /\
  ((length (areas_created t2) <= 1)%nat /\
   areas_removed t2 = areas_created t2 /\
   exists t0,
     t2 = t0 ++ map (fun f => ERemove f (os_Remove os f)) (areas_created t2) /\
     areas_removed t0 = []) /\
  (areas_created t3 = [] /\ areas_removed t3 = []) /\
  (forall ra rm : string -> option string,
     (fillpdf_go.Fill (with_removal os ra rm) it path).1 =
       (fillpdf_go.Fill os it path).1 /\
     (part_000.FillFromReader (with_removal os ra rm) it pdfFile).1 =
       (part_000.FillFromReader os it pdfFile).1 /\
     (part_000.Fill (with_removal os ra rm) it path).1 =
       (part_000.Fill os it path).1) /\
  existsb is_log t1 = existsb failed_removal t1 /\
  existsb is_log t2 = false /\
  existsb is_log t3 = false.
Proof.
  intros t1 t2 t3. subst t1 t2 t3.
  assert (Hsplit : forall (t r : list event),
            t = take (length t - length r) t ++ r ->
            areas_removed (take (length t - length r) t) = [] ->
            exists t0, t = t0 ++ r /\ areas_removed t0 = []) by eauto.
  split_and!.
  - case_answers; cbn; lia.
  - case_answers; reflexivity.
  - case_answers; cbn; repeat answer; simplify_eq;
      apply Hsplit; reflexivity.
  - case_answers; cbn; lia.
  - case_answers; reflexivity.
  - case_answers; cbn; repeat answer; simplify_eq;
      apply Hsplit; reflexivity.
  - case_answers; reflexivity.
  - case_answers; reflexivity.
  - intros ra rm. split_and!.
    + case_answers; try reflexivity; destruct (ra _); reflexivity.
    + case_answers; reflexivity.
    + case_answers; reflexivity.
  - case_answers; reflexivity.
  - case_answers; reflexivity.
  - case_answers; reflexivity.
Qed.

(** C9 as stated fails on [FillFromReader]: a failed removal of the
    temporary file is not logged. *)
Lemma C9_counterexample :
  ~ (forall (os : OS) (it : list (string * value)) (pdfFile : string),
       existsb failed_removal (part_000.FillFromReader os it pdfFile).2 = true ->
       existsb is_log (part_000.FillFromReader os it pdfFile).2 = true).
Proof.
  intros H.
  specialize (H os_remove_fails [] "%PDF" eq_refl).
  vm_compute in H. discriminate H.
Qed.

(** ** strconv: the digits of a float *)

Lemma pow10_pos (k : nat) : 0 < 10 ^ Z.of_nat k.
Proof. apply Z.pow_pos_nonneg; lia. Qed.

Lemma pow10_succ (k : nat) : 10 ^ Z.of_nat (S k) = 10 * 10 ^ Z.of_nat k.
Proof. rewrite Nat2Z.inj_succ, Z.pow_succ_r; lia. Qed.

Lemma pow10_le (j k : nat) : (j <= k)%nat -> 10 ^ Z.of_nat j <= 10 ^ Z.of_nat k.
Proof. intros H. apply Z.pow_le_mono_r; lia. Qed.

(** [10^k] divides [10^k'] for [k <= k']. *)
Lemma pow10_split (j k : nat) :
  (j <= k)%nat -> 10 ^ Z.of_nat k = 10 ^ Z.of_nat (k - j) * 10 ^ Z.of_nat j.
Proof.
  intros H. rewrite <- Z.pow_add_r by lia. f_equal. lia.
Qed.

(** More decimal positions than bits: [10^fuel] exceeds the number. *)
Lemma utoa_fuel_bound (n : Z) : 0 < n -> n < 10 ^ Z.of_nat (utoa_fuel n).
Proof.
  intros Hn. unfold utoa_fuel.
  rewrite Nat2Z.inj_succ, Z2Nat.id by apply Z.log2_nonneg.
  pose proof (Z.log2_spec n Hn) as [_ H].
  eapply Z.lt_le_trans; [exact H|].
  apply Z.pow_le_mono_l. lia.
Qed.

Section rounding_interval.
Import strconv.
Variable b : bounds.
Hypothesis lower_pos : 0 < b_lower b.
Hypothesis value_inside : inside b (b_value b) = true.

(** The interval is convex. *)
Lemma inside_between (x y z : Z) :
  inside b x = true -> inside b z = true -> x <= y <= z -> inside b y = true.
Proof.
  unfold inside. destruct (b_inclusive b); intros Hx Hz Hy;
    apply andb_true_iff in Hx as [Hx1 Hx2];
    apply andb_true_iff in Hz as [Hz1 Hz2];
    apply andb_true_iff; split; lia.
Qed.

Lemma inside_range (x : Z) :
  inside b x = true -> b_lower b <= x <= b_upper b.
Proof.
  unfold inside. destruct (b_inclusive b); intros Hx;
    apply andb_true_iff in Hx as [Hx1 Hx2]; lia.
Qed.

Lemma roundDown_le (k : nat) : roundDown b k <= b_value b < roundUp b k.
Proof.
  unfold roundUp, roundDown. pose proof (pow10_pos k) as Hp.
  pose proof (Z.div_mod (b_value b) (10 ^ Z.of_nat k)) as Hd.
  pose proof (Z.mod_pos_bound (b_value b) (10 ^ Z.of_nat k) Hp). lia.
Qed.

Lemma roundDown_multiple (k : nat) :
  roundDown b k = (b_value b / 10 ^ Z.of_nat k) * 10 ^ Z.of_nat k.
Proof. reflexivity. Qed.

Lemma roundUp_multiple (k : nat) :
  roundUp b k = (b_value b / 10 ^ Z.of_nat k + 1) * 10 ^ Z.of_nat k.
Proof. unfold roundUp, roundDown. lia. Qed.

Lemma roundNearest_cases (k : nat) :
  roundNearest b k = roundDown b k \/ roundNearest b k = roundUp b k.
Proof.
  unfold roundNearest. repeat case_match; auto.
Qed.

(** Where the walk stops, the decimal is in the interval and has no
    digit below the position. *)
Lemma roundAt_Some (k : nat) (x : Z) :
  roundAt b k = Some x ->
  inside b x = true /\ exists q, x = q * 10 ^ Z.of_nat k.
Proof.
  unfold roundAt.
  destruct (inside b (roundDown b k)) eqn:Hd;
    destruct (inside b (roundUp b k)) eqn:Hu; cbn [andb]; intros [= <-].
  - destruct (roundNearest_cases k) as [-> | ->]; split; auto.
    + eexists. apply roundDown_multiple.
    + eexists. apply roundUp_multiple.
  - split; [done|]. eexists. apply roundDown_multiple.
  - split; [done|]. eexists. apply roundUp_multiple.
Qed.

(** Where the walk goes on, no decimal that ends at the position or above
    is in the interval. *)
Lemma roundAt_None (k : nat) (q : Z) :
  roundAt b k = None -> inside b (q * 10 ^ Z.of_nat k) = false.
Proof.
  unfold roundAt.
  destruct (inside b (roundDown b k)) eqn:Hd;
    destruct (inside b (roundUp b k)) eqn:Hu; cbn [andb]; try discriminate.
  intros _. destruct (inside b (q * 10 ^ Z.of_nat k)) eqn:Hy; [|done].
  pose proof (pow10_pos k) as Hp. pose proof (roundDown_le k) as Hr.
  rewrite roundDown_multiple, roundUp_multiple in Hr.
  destruct (Z_le_gt_dec (q * 10 ^ Z.of_nat k) (b_value b)) as [Hle|Hgt].
  - assert (q <= b_value b / 10 ^ Z.of_nat k).
    { apply Z.div_le_lower_bound; lia. }
    rewrite <- Hd. symmetry.
    apply (inside_between (q * 10 ^ Z.of_nat k) _ (b_value b)); auto.
    rewrite roundDown_multiple. nia.
  - assert (b_value b / 10 ^ Z.of_nat k < q).
    { apply Z.div_lt_upper_bound; lia. }
    rewrite <- Hu. symmetry.
    apply (inside_between (b_value b) _ (q * 10 ^ Z.of_nat k)); auto.
    rewrite roundUp_multiple. nia.
Qed.

Lemma roundShortest_spec (k0 : nat) (x : Z) (k : nat) :
  roundShortest b k0 = (x, k) ->
  (k <= k0)%nat /\
  inside b x = true /\
  (exists q, x = q * 10 ^ Z.of_nat k) /\
  (forall k', (k < k' <= k0)%nat -> roundAt b k' = None).
Proof.
  induction k0 as [|k0 IH]; simpl.
  - intros [= <- <-]. split_and!; [lia|done| |lia].
    exists (b_value b). simpl. lia.
  - destruct (roundAt b (S k0)) as [x'|] eqn:Hat.
    + intros [= <- <-]. apply roundAt_Some in Hat as [Hin Hq].
      split_and!; [lia|done|done|lia].
    + intros Hrec. destruct (IH Hrec) as (Hk & Hin & Hq & Hnone).
      split_and!; [lia|done|done|].
      intros k' Hk'. destruct (decide (k' = S k0)) as [->|]; [done|].
      apply Hnone. lia.
Qed.

(** Beyond the first position of the walk every power of ten is larger
    than the interval. *)
Lemma inside_beyond (k' : nat) (q : Z) :
  (utoa_fuel (b_upper b) <= k')%nat -> inside b (q * 10 ^ Z.of_nat k') = false.
Proof.
  intros Hk. destruct (inside b (q * 10 ^ Z.of_nat k')) eqn:Hy; [|done].
  apply inside_range in Hy.
  assert (0 < b_upper b) by lia.
  pose proof (utoa_fuel_bound (b_upper b) H).
  pose proof (pow10_le _ _ Hk). pose proof (pow10_pos k').
  assert (0 < q) by nia. nia.
Qed.

(** The digits are the shortest: the chosen decimal is in the interval,
    and no decimal that ends at a higher position is. *)
Lemma roundShortest_minimal (x : Z) (k : nat) :
  roundShortest b (utoa_fuel (b_upper b)) = (x, k) ->
  inside b x = true /\
  (exists q, 0 < q /\ q mod 10 <> 0 /\ x = q * 10 ^ Z.of_nat k) /\
  (forall (k' : nat) (q : Z), (k < k')%nat ->
     inside b (q * 10 ^ Z.of_nat k') = false).
Proof.
  intros Hrs. destruct (roundShortest_spec _ _ _ Hrs) as (Hk & Hin & [q Hq] & Hnone).
  assert (Hmin : forall (k' : nat) (q : Z), (k < k')%nat ->
            inside b (q * 10 ^ Z.of_nat k') = false).
  { intros k' q' Hk'.
    destruct (le_lt_dec (utoa_fuel (b_upper b)) k').
    - by apply inside_beyond.
    - apply roundAt_None, Hnone. lia. }
  split_and!; [done| |done].
  exists q. pose proof (pow10_pos k) as Hp.
  pose proof (inside_range _ Hin). split_and!; [nia| |done].
  intros Hmod.
  assert (E : x = (q / 10) * 10 ^ Z.of_nat (S k)).
  { rewrite pow10_succ, Hq.
    pose proof (Z.div_mod q 10). lia. }
  specialize (Hmin (S k) (q / 10)). rewrite <- E in Hmin.
  rewrite Hmin in Hin; [done|lia].
Qed.

(** No decimal of the interval has fewer digits than the chosen one:
    its digits, as a number, reach every power of ten the chosen digits
    reach. *)
Lemma roundShortest_fewest (x : Z) (k : nat) (q : Z) :
  roundShortest b (utoa_fuel (b_upper b)) = (x, k) ->
  x = q * 10 ^ Z.of_nat k ->
  forall (m j : nat) (q' : Z),
    10 ^ Z.of_nat m <= q ->
    inside b (q' * 10 ^ Z.of_nat j) = true ->
    10 ^ Z.of_nat m <= q'.
Proof.
  intros Hrs Hx m j q' Hm Hin'.
  destruct (roundShortest_minimal _ _ Hrs) as (Hin & _ & Hmin).
  destruct (Z_lt_le_dec q' (10 ^ Z.of_nat m)) as [Hlt|]; [exfalso|done].
  assert (Hj : (j <= k)%nat).
  { destruct (le_lt_dec j k); [done|]. rewrite Hmin in Hin'; [done|lia]. }
  pose proof (inside_range _ Hin') as Hr'.
  pose proof (pow10_pos j) as Hpj. pose proof (pow10_pos k) as Hpk.
  pose proof (pow10_pos m) as Hpm. pose proof (pow10_le _ _ Hj) as Hjk.
  assert (Hq' : 0 < q') by nia.
  destruct m as [|m]; [simpl in Hlt; lia|].
  assert (Hy : inside b (1 * 10 ^ Z.of_nat (S m + k)) = true).
  { apply (inside_between (q' * 10 ^ Z.of_nat j) _ x); auto.
    rewrite Nat2Z.inj_add, Z.pow_add_r by lia. subst x. nia. }
  rewrite Hmin in Hy; [done|lia].
Qed.

End rounding_interval.

(** *** Decimal text *)

Lemma digit_char_cases (d : Z) :
  0 <= d < 10 ->
  decimal_digit (digit_char d) = true /\
  (digit_char d = "0"%char -> d = 0).
Proof.
  intros Hd.
  assert (d = 0 \/ d = 1 \/ d = 2 \/ d = 3 \/ d = 4 \/ d = 5 \/ d = 6 \/
          d = 7 \/ d = 8 \/ d = 9) as H by lia.
  repeat (destruct H as [-> | H]); try subst d; split; try reflexivity;
    vm_compute; intros; congruence.
Qed.

Lemma digit_char_mod (n : Z) : decimal_digit (digit_char (n mod 10)) = true.
Proof. apply digit_char_cases, Z.mod_pos_bound. lia. Qed.

Lemma decimal_digit_plain (c : ascii) :
  decimal_digit c = true -> plain_char c = true.
Proof. unfold plain_char. by intros ->. Qed.

Lemma Forall_digit_plain (l : list ascii) :
  Forall (fun c => decimal_digit c = true) l ->
  Forall (fun c => plain_char c = true) l.
Proof.
  intros H. eapply Forall_impl; [exact H | apply decimal_digit_plain].
Qed.

Lemma plain_char_no_exponent (c : ascii) :
  plain_char c = true -> (Ascii.eqb c "e" || Ascii.eqb c "E")%char = false.
Proof.
  destruct (Ascii.eqb_spec c "e"%char) as [->|]; [done|].
  destruct (Ascii.eqb_spec c "E"%char) as [->|]; done.
Qed.

Lemma plain_no_exponent (s : string) :
  Forall (fun c => plain_char c = true) (chars s) -> has_exponent s = false.
Proof.
  unfold has_exponent. induction 1 as [|c l Hc _ IH]; [done|].
  simpl. by rewrite (plain_char_no_exponent c Hc), IH.
Qed.

Lemma digits_no_point (l : list ascii) :
  Forall (fun c => decimal_digit c = true \/ c = "-"%char) l ->
  existsb (fun c => Ascii.eqb c ".")%char l = false.
Proof.
  induction 1 as [|c l Hc _ IH]; [done|]. simpl. rewrite IH.
  destruct (Ascii.eqb_spec c "."%char) as [->|]; [|done].
  destruct Hc as [Hc|Hc]; [vm_compute in Hc|]; discriminate.
Qed.

(** The digits come out in front of the accumulator. *)
Lemma utoa_loop_acc (fuel : nat) (n : Z) (acc : string) :
  utoa_loop fuel n acc = utoa_loop fuel n "" +:+ acc.
Proof.
  revert n acc. induction fuel as [|fuel IH]; intros n acc; [done|].
  simpl. destruct (n / 10 =? 0); [done|].
  rewrite IH. rewrite (IH _ (String _ "")).
  by rewrite append_assoc.
Qed.

Lemma utoa_loop_digits (fuel : nat) (n : Z) (acc : string) :
  Forall (fun c => decimal_digit c = true) (chars acc) ->
  Forall (fun c => decimal_digit c = true) (chars (utoa_loop fuel n acc)).
Proof.
  revert n acc. induction fuel as [|fuel IH]; intros n acc Hacc; [done|].
  simpl.
  assert (Forall (fun c => decimal_digit c = true)
            (chars (String (digit_char (n mod 10)) acc))).
  { constructor; [apply digit_char_mod | done]. }
  destruct (n / 10 =? 0); auto.
Qed.

Lemma utoa_digits (n : Z) :
  Forall (fun c => decimal_digit c = true) (chars (utoa n)).
Proof. apply utoa_loop_digits. constructor. Qed.

(** The last digit printed is the remainder modulo ten. *)
Lemma utoa_last (n : Z) :
  exists pre : string, utoa n = pre +:+ String (digit_char (n mod 10)) "".
Proof.
  unfold utoa, utoa_fuel. simpl.
  destruct (n / 10 =? 0).
  - by exists "".
  - eexists. apply utoa_loop_acc.
Qed.

Lemma get_append_last (pre : string) (c : ascii) :
  String.get (String.length pre) (pre +:+ String c "") = Some c.
Proof. induction pre as [|x pre IH]; [done|]. by rewrite append_cons. Qed.

Lemma get_chars (i : nat) (s : string) (c : ascii) :
  String.get i s = Some c -> c ∈ chars s.
Proof.
  revert i. induction s as [|x s IH]; intros i; [done|].
  destruct i as [|i]; simpl.
  - intros [= ->]. apply list_elem_of_here.
  - intros H. apply list_elem_of_further. eauto.
Qed.

Lemma substring_chars (P : ascii -> Prop) (n m : nat) (s : string) :
  Forall P (chars s) -> Forall P (chars (String.substring n m s)).
Proof.
  revert n m. induction s as [|x s IH]; intros n m Hs.
  - destruct n, m; constructor.
  - apply Forall_cons in Hs as [Hx Hs].
    destruct n as [|n]; simpl.
    + destruct m as [|m]; [constructor|].
      constructor; [done|]. by apply IH.
    + by apply IH.
Qed.

Lemma zeros_digits (n : nat) :
  Forall (fun c => decimal_digit c = true) (chars (strconv.zeros n)).
Proof. induction n; constructor; done. Qed.

Section fmtF_text.
Import strconv.
Variable d : decimalSlice.
Hypothesis digits_ok : Forall (fun c => decimal_digit c = true) (chars (d_digits d)).

Lemma digit_at_digit (j : Z) : decimal_digit (digit_at d j) = true.
Proof.
  unfold digit_at. destruct ((0 <=? j) && (j <? d_nd d)); [|done].
  destruct (String.get (Z.to_nat j) (d_digits d)) as [c|] eqn:Hg; [|done].
  apply get_chars in Hg.
  by apply (proj1 (Forall_forall _ _) digits_ok).
Qed.

Lemma fraction_digits (i : Z) (n : nat) :
  Forall (fun c => decimal_digit c = true) (chars (fraction d i n)).
Proof.
  revert i. induction n as [|n IH]; intros i; constructor.
  - apply digit_at_digit.
  - apply IH.
Qed.

Lemma fraction_last (i : Z) (n : nat) :
  last (chars (fraction d i (S n))) = Some (digit_at d (d_dp d + (i + Z.of_nat n))).
Proof.
  revert i. induction n as [|n IH]; intros i.
  - simpl. do 3 f_equal. lia.
  - change (chars (fraction d i (S (S n))))
      with (digit_at d (d_dp d + i) :: chars (fraction d (i + 1) (S n))).
    change (chars (fraction d (i + 1) (S n)))
      with (digit_at d (d_dp d + (i + 1)) :: chars (fraction d (i + 1 + 1) n)).
    rewrite last_cons_cons.
    change (digit_at d (d_dp d + (i + 1)) :: chars (fraction d (i + 1 + 1) n))
      with (chars (fraction d (i + 1) (S n))).
    rewrite IH. do 3 f_equal. lia.
Qed.

Lemma int_part_digits :
  Forall (fun c => decimal_digit c = true)
    (chars (if 0 <? d_dp d
            then String.substring 0 (Z.to_nat (Z.min (d_nd d) (d_dp d))) (d_digits d)
                   +:+ zeros (Z.to_nat (d_dp d - Z.min (d_nd d) (d_dp d)))
            else "0")).
Proof.
  destruct (0 <? d_dp d).
  - rewrite chars_append. apply Forall_app. split.
    + by apply substring_chars.
    + apply zeros_digits.
  - by constructor.
Qed.

(** [%f] writes sign, digits and at most one point. *)
Lemma fmtF_plain (neg : bool) (prec : Z) :
  Forall (fun c => plain_char c = true) (chars (fmtF neg d prec)).
Proof.
  unfold fmtF. rewrite !chars_append. apply Forall_app. split.
  - destruct neg; repeat constructor.
  - apply Forall_app. split.
    + apply Forall_digit_plain, int_part_digits.
    + destruct (0 <? prec); [|constructor].
      rewrite chars_append. apply Forall_app. split.
      * repeat constructor.
      * apply Forall_digit_plain, fraction_digits.
Qed.

(** With the precision of the shortest form, [max(nd - dp, 0)], the text
    ends with the last digit whenever it has a fraction. *)
Lemma fmtF_no_trailing_zero (neg : bool) (pre : string) (c : ascii) :
  d_digits d = pre +:+ String c "" ->
  c <> "0"%char ->
  trailing_zero (fmtF neg d (Z.max (d_nd d - d_dp d) 0)) = false.
Proof.
  intros Hd Hc. unfold trailing_zero, has_point, fmtF.
  destruct (0 <? Z.max (d_nd d - d_dp d) 0) eqn:Hprec.
  - apply Z.ltb_lt in Hprec.
    assert (Hn : exists n, Z.to_nat (Z.max (d_nd d - d_dp d) 0) = S n /\
                 Z.of_nat n = d_nd d - d_dp d - 1).
    { exists (Z.to_nat (d_nd d - d_dp d - 1)). lia. }
    destruct Hn as (n & -> & Hn).
    rewrite !chars_append, !last_app, fraction_last.
    replace (d_dp d + (0 + Z.of_nat n)) with (d_nd d - 1) by lia.
    assert (Hlen : d_nd d = Z.of_nat (String.length pre) + 1).
    { unfold d_nd. rewrite Hd, length_append. simpl. lia. }
    unfold digit_at.
    replace ((0 <=? d_nd d - 1) && (d_nd d - 1 <? d_nd d)) with true
      by (symmetry; apply andb_true_iff; lia).
    replace (Z.to_nat (d_nd d - 1)) with (String.length pre) by lia.
    rewrite Hd, get_append_last.
    destruct (Ascii.eqb_spec c "0"%char); [done|].
    apply andb_false_r.
  - apply andb_false_iff. left.
    rewrite append_nil_r, !chars_append.
    apply digits_no_point, Forall_app. split.
    + destruct neg; [|constructor].
      constructor; [by right | constructor].
    + eapply Forall_impl; [apply int_part_digits|]. auto.
Qed.

End fmtF_text.

(** *** The digits [FormatFloat] prints *)

Lemma digits_value_app (a : string) (c : ascii) :
  digits_value (a +:+ String c "") =
    digits_value a * 10 + (Z.of_nat (nat_of_ascii c) - 48).
Proof.
  unfold digits_value. rewrite chars_append, fold_left_app. reflexivity.
Qed.

Lemma digit_char_value (d : Z) :
  0 <= d < 10 -> Z.of_nat (nat_of_ascii (digit_char d)) - 48 = d.
Proof.
  intros Hd. unfold digit_char.
  rewrite nat_ascii_embedding by lia. lia.
Qed.

Lemma utoa_loop_value (fuel : nat) (n : Z) :
  0 <= n < 10 ^ Z.of_nat fuel ->
  digits_value (utoa_loop fuel n "") = n.
Proof.
  revert n. induction fuel as [|fuel IH]; intros n Hn.
  - simpl in Hn. assert (n = 0) as -> by lia. reflexivity.
  - rewrite pow10_succ in Hn. simpl.
    pose proof (Z.div_mod n 10) as Hdm.
    pose proof (Z.mod_pos_bound n 10) as Hmod.
    destruct (n / 10 =? 0) eqn:Hz.
    + apply Z.eqb_eq in Hz.
      change (String (digit_char (n mod 10)) "")
        with ("" +:+ String (digit_char (n mod 10)) "").
      rewrite digits_value_app, digit_char_value by lia.
      change (digits_value "") with 0. lia.
    + rewrite utoa_loop_acc, digits_value_app, digit_char_value by lia.
      rewrite IH; [lia|].
      split; [apply Z.div_pos; lia|].
      apply Z.div_lt_upper_bound; lia.
Qed.

(** [utoa] spells its argument. *)
Lemma utoa_value (n : Z) : 0 <= n -> digits_value (utoa n) = n.
Proof.
  intros Hn. apply utoa_loop_value.
  destruct (decide (n = 0)) as [->|].
  - split; [lia|]. apply pow10_pos.
  - split; [lia|]. apply utoa_fuel_bound. lia.
Qed.

Lemma decode_mant_nonneg (bits : Z) (neg : bool) (mant exp : Z) :
  strconv.decode bits = strconv.Finite neg mant exp -> 0 <= mant.
Proof.
  unfold strconv.decode. intros H.
  assert (Hland : 0 <= Z.land bits (Z.shiftl 1 strconv.mantbits - 1)).
  { apply Z.land_nonneg. right. done. }
  set (m := Z.land bits (Z.shiftl 1 strconv.mantbits - 1)) in *.
  clearbody m.
  set (e := Z.land (Z.shiftr bits strconv.mantbits) (Z.shiftl 1 strconv.expbits - 1)) in *.
  clearbody e.
  set (n := negb (Z.shiftr bits (strconv.expbits + strconv.mantbits) =? 0)) in *.
  clearbody n.
  destruct (e =? Z.shiftl 1 strconv.expbits - 1).
  - destruct (negb (m =? 0)); discriminate H.
  - destruct (e =? 0).
    + injection H as _ <- _. exact Hland.
    + injection H as _ <- _.
      apply Z.lor_nonneg. split; [exact Hland|].
      apply Z.shiftl_nonneg. lia.
Qed.

Lemma computeBounds_facts (mant exp : Z) :
  0 < mant ->
  let b := strconv.computeBounds mant exp in
  0 < strconv.b_lower b /\ strconv.inside b (strconv.b_value b) = true.
Proof.
  intros Hm b. subst b. unfold strconv.computeBounds, strconv.inside.
  cbn [strconv.b_lower strconv.b_value strconv.b_upper strconv.b_inclusive].
  set (s := exp - strconv.mantbits - 2).
  set (F := if s <? 0 then 5 ^ (- s) else 2 ^ s).
  assert (HF : 0 < F).
  { subst F. destruct (Z.ltb_spec s 0); apply Z.pow_pos_nonneg; lia. }
  set (lo := if (2 ^ strconv.mantbits <? mant) || (exp =? strconv.bias + 1)
             then 4 * mant - 2 else 4 * mant - 1).
  assert (Hlo : 2 <= lo < 4 * mant).
  { subst lo. destruct (_ || _); lia. }
  split; [nia|].
  destruct (Z.even mant); apply andb_true_iff; split;
    first [apply Z.leb_le | apply Z.ltb_lt]; nia.
Qed.

(** What [shortest] returns for a non-zero mantissa: the digits of a
    number [q] that does not end in zero, placed so that the decimal
    is [q * 10^k] in the unit of the bounds; this decimal rounds back to
    the float, no decimal ending at a higher position does, and none
    that does has fewer digits. *)
Lemma shortest_spec (mant exp : Z) :
  0 < mant ->
  let b := strconv.computeBounds mant exp in
  exists (q : Z) (k : nat),
    strconv.d_digits (strconv.shortest mant exp) = utoa q /\
    digits_value (strconv.d_digits (strconv.shortest mant exp)) = q /\
    strconv.d_dp (strconv.shortest mant exp) =
      strconv.d_nd (strconv.shortest mant exp) + Z.of_nat k + strconv.b_qmin b /\
    0 < q /\ q mod 10 <> 0 /\
    strconv.inside b (q * 10 ^ Z.of_nat k) = true /\
    (forall (k' : nat) (q' : Z), (k < k')%nat ->
       strconv.inside b (q' * 10 ^ Z.of_nat k') = false) /\
    (forall (m j : nat) (q' : Z),
       10 ^ Z.of_nat m <= q ->
       strconv.inside b (q' * 10 ^ Z.of_nat j) = true ->
       10 ^ Z.of_nat m <= q').
Proof.
  intros Hm b. destruct (computeBounds_facts mant exp Hm) as [HL HV].
  fold b in HL, HV.
  unfold strconv.shortest. replace (mant =? 0) with false by (symmetry; lia).
  fold b.
  destruct (strconv.roundShortest b (utoa_fuel (strconv.b_upper b)))
    as [x k] eqn:Hrs.
  destruct (roundShortest_minimal b HL HV x k Hrs)
    as (Hin & (q & Hq & Hmod & Hx) & Hmin).
  pose proof (pow10_pos k) as Hp.
  assert (Hdiv : x / 10 ^ Z.of_nat k = q).
  { rewrite Hx. apply Z.div_mul. lia. }
  exists q, k. cbn [strconv.d_digits strconv.d_dp]. rewrite Hdiv.
  split_and!; try done.
  - apply utoa_value. lia.
  - by rewrite <- Hx.
  - exact (roundShortest_fewest b HL HV x k q Hrs Hx).
Qed.

(** The text of a finite float is plain and has no zero at the end of a
    fraction. *)
Lemma FormatFloat_finite_text (neg : bool) (mant exp : Z) :
  0 <= mant ->
  let digs := strconv.shortest mant exp in
  let text := strconv.fmtF neg digs (Z.max (strconv.d_nd digs - strconv.d_dp digs) 0) in
  Forall (fun c => plain_char c = true) (chars text) /\
  trailing_zero text = false.
Proof.
  intros Hm digs text. destruct (decide (mant = 0)) as [->|Hne].
  - subst text digs. destruct neg; vm_compute; split; repeat constructor.
  - assert (Hpos : 0 < mant) by lia.
    destruct (shortest_spec mant exp Hpos)
      as (q & k & Hd & _ & _ & Hq & Hmod & _).
    fold digs in Hd.
    assert (Hdig : Forall (fun c => decimal_digit c = true)
                     (chars (strconv.d_digits digs))).
    { rewrite Hd. apply utoa_digits. }
    split; [by apply fmtF_plain|].
    destruct (utoa_last q) as [pre Hpre].
    apply (fmtF_no_trailing_zero digs Hdig neg pre (digit_char (q mod 10))).
    + by rewrite Hd.
    + intros H0. apply Hmod.
      apply (digit_char_cases (q mod 10)); [|done].
      apply Z.mod_pos_bound. lia.
Qed.


(** * Further properties *)

(** ** Outcomes of the three operations *)

(** X1: [Fill] of [src/fillpdf.go] succeeds exactly when every step does:
    the path resolves, the file exists, pdftk is found, the directory is
    made, [data.fdf] is created and written, and pdftk exits cleanly; the
    result is then what pdftk wrote to its standard output. *)
Theorem fillpdf_go_Fill_success (os : OS) (it : list (string * value))
    (path out : string) :
  (fillpdf_go.Fill os it path).1 = Ok out <->
  exists resolved tool tmpDir : string,
    os_Abs os path = Ok resolved /\
    os_Stat os resolved = None /\
    os_LookPath os "pdftk" = Ok tool /\
    os_TempDir os "" "fillpdf-" = Ok tmpDir /\
    os_Create os (os_Clean os (tmpDir +:+ "/data.fdf")) = None /\
    os_Write os (os_Clean os (tmpDir +:+ "/data.fdf")) (fillpdf_go.fdfContent it)
      = None /\
    os_Run os (Some tmpDir) "pdftk"
      [resolved; "fill_form"; os_Clean os (tmpDir +:+ "/data.fdf"); "output"; "-"]
      StdinNone = (out, None).
Proof.
  split.
  - case_answers; intros [= <-]; eauto 10.
  - intros (resolved & tool & tmpDir & HA & HS & HL & HT & HC & HW & HR).
    unfold_ops. rewrite HA, HS, HL, HT, HC, HW, HR. reflexivity.
Qed.

(** X2: Every error of [Fill] of [src/fillpdf.go] names the step that failed,
    by one of seven messages. *)
Theorem fillpdf_go_Fill_errors (os : OS) (it : list (string * value))
    (path msg : string) :
  (fillpdf_go.Fill os it path).1 = Err msg ->
  (exists e, msg = "failed to create the absolute path: " +:+ e) \/
  (exists e, msg = "failed to check if form PDF file exists: " +:+ e) \/
  (exists p, msg = "form PDF file does not exists: '" +:+ p +:+ "'") \/
  msg = "pdftk utility is not installed!" \/
  (exists e, msg = "failed to create temporary directory: " +:+ e) \/
  (exists e, msg = "failed to create fdf form data file: " +:+ e) \/
  (exists e, msg = "pdftk error: " +:+ e).
Proof.
  case_answers; intros [= <-];
    repeat first [ left; solve [eexists; reflexivity | reflexivity] | right ];
    eexists; reflexivity.
Qed.

Lemma fillpdf_go_Fill_errors_witness :
  (fillpdf_go.Fill os_pdftk_fails [] "/t.pdf").1 = Err "pdftk error: Error: not a PDF" /\
  ((exists e, "pdftk error: Error: not a PDF" = "failed to create the absolute path: " +:+ e) \/
   (exists e, "pdftk error: Error: not a PDF" = "failed to check if form PDF file exists: " +:+ e) \/
   (exists p, "pdftk error: Error: not a PDF" = "form PDF file does not exists: '" +:+ p +:+ "'") \/
   "pdftk error: Error: not a PDF" = "pdftk utility is not installed!" \/
   (exists e, "pdftk error: Error: not a PDF" = "failed to create temporary directory: " +:+ e) \/
   (exists e, "pdftk error: Error: not a PDF" = "failed to create fdf form data file: " +:+ e) \/
   (exists e, "pdftk error: Error: not a PDF" = "pdftk error: " +:+ e)).
Proof.
  assert (H : (fillpdf_go.Fill os_pdftk_fails [] "/t.pdf").1 =
              Err "pdftk error: Error: not a PDF") by reflexivity.
  split; [exact H|].
  exact (fillpdf_go_Fill_errors os_pdftk_fails [] "/t.pdf" _ H).
Defined.

(** X3: [FillFromReader] succeeds exactly when pdftk is found, the temporary
    file is created and written with the encoded form, and pdftk, fed the
    caller's reader, exits cleanly; the result is what pdftk wrote. *)
Theorem FillFromReader_success (os : OS) (it : list (string * value))
    (pdfFile out : string) :
  (part_000.FillFromReader os it pdfFile).1 = Ok out <->
  exists tool f : string,
    os_LookPath os "pdftk" = Ok tool /\
    os_CreateTemp os "" "fdf" = Ok f /\
    os_Write os f (part_000.createFdfFile it) = None /\
    os_Run os None "pdftk" ["-"; "fill_form"; f; "output"; "-"]
      (StdinReader pdfFile) = (out, None).
Proof.
  split.
  - case_answers; intros [= <-]; eauto 10.
  - intros (tool & f & HL & HT & HW & HR).
    unfold_ops. rewrite HL, HT, HW, HR. reflexivity.
Qed.

(** X4: The errors of [FillFromReader]: the missing tool; the error of
    [os.CreateTemp] or of the write, passed on as it is; or the pdftk
    error, which carries what pdftk had printed. *)
Theorem FillFromReader_errors (os : OS) (it : list (string * value))
    (pdfFile msg : string) :
  (part_000.FillFromReader os it pdfFile).1 = Err msg ->
  (msg = "pdftk utility is not installed!" /\
   exists e, os_LookPath os "pdftk" = Err e) \/
  os_CreateTemp os "" "fdf" = Err msg \/
  (exists f, os_CreateTemp os "" "fdf" = Ok f /\
             os_Write os f (part_000.createFdfFile it) = Some msg) \/
  (exists f e out,
     os_CreateTemp os "" "fdf" = Ok f /\
     os_Run os None "pdftk" ["-"; "fill_form"; f; "output"; "-"]
       (StdinReader pdfFile) = (out, Some e) /\
     msg = "pdftk error: " +:+ e +:+ LF +:+ "Output: " +:+ out).
Proof.
  case_answers; intros [= <-]; eauto 12.
Qed.

Lemma FillFromReader_errors_witness :
  let msg := "pdftk error: exit status 1" +:+ LF +:+ "Output: partial" in
  (part_000.FillFromReader os_pdftk_fails [] "%PDF").1 = Err msg /\
  ((msg = "pdftk utility is not installed!" /\
    exists e, os_LookPath os_pdftk_fails "pdftk" = Err e) \/
   os_CreateTemp os_pdftk_fails "" "fdf" = Err msg \/
   (exists f, os_CreateTemp os_pdftk_fails "" "fdf" = Ok f /\
              os_Write os_pdftk_fails f (part_000.createFdfFile []) = Some msg) \/
   (exists f e out,
      os_CreateTemp os_pdftk_fails "" "fdf" = Ok f /\
      os_Run os_pdftk_fails None "pdftk" ["-"; "fill_form"; f; "output"; "-"]
        (StdinReader "%PDF") = (out, Some e) /\
      msg = "pdftk error: " +:+ e +:+ LF +:+ "Output: " +:+ out)).
Proof.
  intros msg.
  assert (H : (part_000.FillFromReader os_pdftk_fails [] "%PDF").1 = Err msg)
    by reflexivity.
  split; [exact H|].
  exact (FillFromReader_errors os_pdftk_fails [] "%PDF" msg H).
Defined.

(** Name the answers behind an error and pick its case. *)
Ltac tied_to_answers :=
  repeat eexists; try split_and!; first [eassumption | reflexivity].

Ltac pick_cause :=
  first [ solve [tied_to_answers]
        | solve [left; tied_to_answers]
        | right; pick_cause ].

(** X5: [Fill] of the second source file succeeds exactly when the path
    resolves, the file exists, pdftk is found and pdftk, fed the encoded
    form, exits cleanly.  Each of its five errors comes from the answer
    that caused it; the pdftk error is the prefix and the error of the
    run, and does not carry what pdftk printed: a system whose runs fail
    alike but print something else gives the same error. *)
Theorem part_000_Fill_outcomes (os : OS) (it : list (string * value))
    (path : string) :
  (forall out,
     (part_000.Fill os it path).1 = Ok out <->
     exists resolved tool : string,
       os_Abs os path = Ok resolved /\
       os_Stat os resolved = None /\
       os_LookPath os "pdftk" = Ok tool /\
       os_Run os None "pdftk" [resolved; "fill_form"; "-"; "output"; "-"]
         (StdinBytes (part_000.createFdfFile it)) = (out, None)) /\
  (forall msg,
     (part_000.Fill os it path).1 = Err msg ->
     (exists e,
        os_Abs os path = Err e /\
        msg = "failed to create the absolute path: " +:+ e) \/
     (exists resolved e,
        os_Abs os path = Ok resolved /\
        os_Stat os resolved = Some e /\ os_IsNotExist os e = false /\
        msg = "failed to check if form PDF file exists: " +:+ e) \/
     (exists resolved e,
        os_Abs os path = Ok resolved /\
        os_Stat os resolved = Some e /\ os_IsNotExist os e = true /\
        msg = "form PDF file does not exist: '" +:+ resolved +:+ "'") \/
     (msg = "pdftk utility is not installed!" /\
      exists e, os_LookPath os "pdftk" = Err e) \/
     (exists resolved e out,
        os_Abs os path = Ok resolved /\
        os_Run os None "pdftk" [resolved; "fill_form"; "-"; "output"; "-"]
          (StdinBytes (part_000.createFdfFile it)) = (out, Some e) /\
        msg = "pdftk error: " +:+ e)) /\
  (forall run' msg,
     (forall d n a i, (run' d n a i).2 = (os_Run os d n a i).2) ->
     (part_000.Fill os it path).1 = Err msg ->
     (part_000.Fill (with_run os run') it path).1 = Err msg).
Proof.
  split_and!.
  - intros out. split.
    + case_answers; intros [= <-]; eauto 10.
    + intros (resolved & tool & HA & HS & HL & HR).
      unfold_ops. rewrite HA, HS, HL, HR. reflexivity.
  - intros msg. case_answers; intros [= <-]; pick_cause.
  - intros run' msg Hrun. unfold_ops. unfold with_run.
    cbn [fst snd negb app os_Abs os_Stat os_IsNotExist os_LookPath os_Run].
    destruct (os_Abs os path) as [resolved|]; [|done].
    destruct (os_Stat os resolved) as [e|];
      [destruct (os_IsNotExist os e); done|].
    cbn [fst snd negb app].
    destruct (os_LookPath os "pdftk"); [|done].
    cbn [fst snd negb app].
    specialize (Hrun None "pdftk" [resolved; "fill_form"; "-"; "output"; "-"]
                  (StdinBytes (part_000.createFdfFile it))).
    destruct (run' _ _ _ _) as [out' err'], (os_Run os _ _ _ _) as [out err].
    cbn [snd] in Hrun. subst err'. destruct err; done.
Qed.

Lemma part_000_Fill_outcomes_witness :
  (part_000.Fill os_pdftk_fails [] "/t.pdf").1 = Err "pdftk error: exit status 1" /\
  (part_000.Fill
     (with_run os_pdftk_fails (fun _ _ _ _ => ("something else", Some "exit status 1")))
     [] "/t.pdf").1 = Err "pdftk error: exit status 1".
Proof.
  assert (H : (part_000.Fill os_pdftk_fails [] "/t.pdf").1 =
              Err "pdftk error: exit status 1") by reflexivity.
  split; [exact H|].
  destruct (part_000_Fill_outcomes os_pdftk_fails [] "/t.pdf") as (_ & _ & Hind).
  apply Hind; [|exact H].
  intros d n a i. reflexivity.
Defined.

(** ** What the operations touch *)

(** Membership in an explicit list, one element at a time. *)
Ltac inv_elem H :=
  repeat (apply elem_of_cons in H as [H|H]; [try discriminate H|]);
  try (by apply elem_of_nil in H).

(** X6: pdftk is started at most once, and only on a staged form: in
    [src/fillpdf.go] after [data.fdf] was created and written in full in
    the new directory, in [FillFromReader] after the temporary file was
    written, in the second [Fill] with the encoded form on standard
    input.  An operation that starts no process returns an error. *)
Theorem pdftk_started_once_when_staged (os : OS)
    (it : list (string * value)) (path pdfFile : string) :
  let r1 := fillpdf_go.Fill os it path in
  let r2 := part_000.FillFromReader os it pdfFile in
  let r3 := part_000.Fill os it path in
  (filter is_run r1.2 = [] /\ (exists msg, r1.1 = Err msg) \/
   exists resolved tmpDir r,
     os_Abs os path = Ok resolved /\
     os_TempDir os "" "fillpdf-" = Ok tmpDir /\
     os_Create os (os_Clean os (tmpDir +:+ "/data.fdf")) = None /\
     os_Write os (os_Clean os (tmpDir +:+ "/data.fdf")) (fillpdf_go.fdfContent it)
       = None /\
     filter is_run r1.2 =
       [ERun (Some tmpDir) "pdftk"
          [resolved; "fill_form"; os_Clean os (tmpDir +:+ "/data.fdf"); "output"; "-"]
          StdinNone r]) /\
  (filter is_run r2.2 = [] /\ (exists msg, r2.1 = Err msg) \/
   exists f r,
     os_CreateTemp os "" "fdf" = Ok f /\
     os_Write os f (part_000.createFdfFile it) = None /\
     filter is_run r2.2 =
       [ERun None "pdftk" ["-"; "fill_form"; f; "output"; "-"]
          (StdinReader pdfFile) r]) /\
  (filter is_run r3.2 = [] /\ (exists msg, r3.1 = Err msg) \/
   exists resolved r,
     os_Abs os path = Ok resolved /\
     filter is_run r3.2 =
       [ERun None "pdftk" [resolved; "fill_form"; "-"; "output"; "-"]
          (StdinBytes (part_000.createFdfFile it)) r]).
Proof.
  intros r1 r2 r3. subst r1 r2 r3. split_and!.
  - case_answers;
      first [ left; split; [reflexivity | eexists; reflexivity]
            | right; eexists _, _, _; split_and!; eauto; reflexivity ].
  - case_answers;
      first [ left; split; [reflexivity | eexists; reflexivity]
            | right; eexists _, _; split_and!; eauto; reflexivity ].
  - case_answers;
      first [ left; split; [reflexivity | eexists; reflexivity]
            | right; eexists _, _; split_and!; eauto; reflexivity ].
Qed.

(** X7: The only paths created, written, closed or removed are the staging
    area: in [src/fillpdf.go] the directory [ioutil.TempDir] returned and
    [data.fdf] in it, in [FillFromReader] the file [os.CreateTemp]
    returned; [Fill] of the second source file touches no path at all. *)
Theorem only_staging_area_touched (os : OS)
    (it : list (string * value)) (path pdfFile : string) :
  (forall p, p ∈ paths_touched (fillpdf_go.Fill os it path).2 ->
     exists tmpDir,
       os_TempDir os "" "fillpdf-" = Ok tmpDir /\
       (p = tmpDir \/ p = os_Clean os (tmpDir +:+ "/data.fdf"))) /\
  (forall p, p ∈ paths_touched (part_000.FillFromReader os it pdfFile).2 ->
     os_CreateTemp os "" "fdf" = Ok p) /\
  paths_touched (part_000.Fill os it path).2 = [].
Proof.
  split_and!.
  - intros p. case_answers; cbn; intros Hin; inv_elem Hin; subst; eauto.
  - intros p. case_answers; cbn; intros Hin; inv_elem Hin; subst; eauto.
  - case_answers; reflexivity.
Qed.

(** X8: [createFdfFile(form, path)] of [src/fillpdf.go]: a file that was
    opened is closed, once, also when the write fails; when [os.Create]
    fails its error is returned and nothing is written or closed; the
    function succeeds exactly when both the create and the write do, and
    what it writes is the encoded form. *)
Theorem createFdfFile_file_discipline (os : OS)
    (it : list (string * value)) (path : string) :
  let r := fillpdf_go.createFdfFile os it path in
  concat (map closed r.2) = concat (map opened r.2) /\
  (r.1 = Ok tt <->
   os_Create os path = None /\
   os_Write os path (fillpdf_go.fdfContent it) = None) /\
  (forall e, os_Create os path = Some e ->
     r = (Err e, [ECreate path (Some e)])) /\
  (forall e, os_Create os path = None ->
     os_Write os path (fillpdf_go.fdfContent it) = Some e ->
     r = (Err e, [ECreate path None;
                  EWrite path (fillpdf_go.fdfContent it) (Some e);
                  EClose path])) /\
  (forall p data w, EWrite p data w ∈ r.2 ->
     p = path /\ data = fillpdf_go.fdfContent it).
Proof.
  intros r. subst r. split_and!.
  - case_answers; reflexivity.
  - split.
    + case_answers; intros [=]; done.
    + intros [HC HW]. unfold_ops. rewrite HC, HW. reflexivity.
  - intros e HC. unfold_ops. rewrite HC. reflexivity.
  - intros e HC HW. unfold_ops. rewrite HC, HW. reflexivity.
  - intros p data w. case_answers; cbn; intros Hin; inv_elem Hin;
      by simplify_eq.
Qed.

(** ** More on the encoder *)

Lemma concat_lines_length_perm (l1 l2 : list string) :
  l1 ≡ₚ l2 ->
  String.length (concat_lines l1) = String.length (concat_lines l2).
Proof.
  induction 1 as [|x l l' _ IH|x y l|l l' l'' _ IH1 _ IH2];
    simpl; rewrite ?length_append in *; lia.
Qed.

Lemma fdfText_length (header footer : string) (it : list (string * value)) :
  String.length (fdfText header footer it) =
    (String.length header + String.length footer + 2
     + String.length (concat_lines (fieldEntries it)))%nat.
Proof.
  unfold fdfText. rewrite !length_append.
  change (String.length LF) with 1%nat. lia.
Qed.

(** X9: Setting a field and encoding: the entries are those of the form
    without that key, plus the one line of the new value, so an old value
    of the key leaves no line behind and the text grows by that line. *)
Theorem encode_after_insert (form : Form) (it it' : list (string * value))
    (key : string) (v : value) :
  range_order (delete key form) it ->
  range_order (<[key := v]> form) it' ->
  fieldEntries it' ≡ₚ fieldEntry key v :: fieldEntries it /\
  String.length (part_000.createFdfFile it') =
    (String.length (part_000.createFdfFile it)
     + String.length (fieldEntry key v))%nat /\
  String.length (fillpdf_go.fdfContent it') =
    (String.length (fillpdf_go.fdfContent it)
     + String.length (fieldEntry key v))%nat.
Proof.
  unfold range_order. intros Hit Hit'.
  assert (Hp : fieldEntries it' ≡ₚ fieldEntry key v :: fieldEntries it).
  { unfold fieldEntries.
    change (fieldEntry key v :: ((fun kv => fieldEntry kv.1 kv.2) <$> it))
      with ((fun kv => fieldEntry kv.1 kv.2) <$> ((key, v) :: it)).
    apply fmap_Permutation.
    rewrite Hit', Hit, <- insert_delete_eq.
    apply map_to_list_insert, lookup_delete_eq. }
  split; [exact Hp|].
  apply concat_lines_length_perm in Hp.
  change (concat_lines (fieldEntry key v :: fieldEntries it))
    with (fieldEntry key v +:+ concat_lines (fieldEntries it)) in Hp.
  rewrite length_append in Hp.
  unfold part_000.createFdfFile, fillpdf_go.fdfContent.
  rewrite !fdfText_length. lia.
Qed.

Lemma encode_after_insert_witness :
  let form : Form := <["Age" := VInt 29]> ∅ in
  range_order (delete "Age" form) [] /\
  range_order (<["Age" := VFloat64 bits_30]> form) [("Age", VFloat64 bits_30)] /\
  fieldEntries [("Age", VFloat64 bits_30)] ≡ₚ
    fieldEntry "Age" (VFloat64 bits_30) :: fieldEntries [].
Proof.
  intros form.
  assert (H1 : range_order (delete "Age" form) [])
    by (unfold range_order; reflexivity).
  assert (H2 : range_order (<["Age" := VFloat64 bits_30]> form)
                 [("Age", VFloat64 bits_30)])
    by (unfold range_order; reflexivity).
  split; [exact H1|]. split; [exact H2|].
  destruct (encode_after_insert form _ _ "Age" (VFloat64 bits_30) H1 H2)
    as (H & _).
  exact H.
Defined.

Lemma chars_inj (a b : string) : chars a = chars b -> a = b.
Proof.
  intros H. rewrite <- (string_of_list_ascii_of_string a),
    <- (string_of_list_ascii_of_string b).
  unfold chars in H. by rewrite H.
Qed.

Lemma append_inj_r (a b t : string) : a +:+ t = b +:+ t -> a = b.
Proof.
  intros H. apply chars_inj.
  apply (f_equal chars) in H. rewrite !chars_append in H.
  by apply app_inv_tail in H.
Qed.

(** A text without [)] ends at the first [)] that follows it. *)
Lemma split_at_rparen (k1 k2 r1 r2 : string) :
  no_rparen k1 = true -> no_rparen k2 = true ->
  k1 +:+ String ")" r1 = k2 +:+ String ")" r2 ->
  k1 = k2 /\ r1 = r2.
Proof.
  revert k2. induction k1 as [|c k1 IH]; intros [|c2 k2] H1 H2 E.
  - by injection E as ->.
  - rewrite append_cons in E. injection E as <- _.
    unfold no_rparen in H2. simpl in H2. discriminate H2.
  - rewrite append_cons in E. injection E as -> _.
    unfold no_rparen in H1. simpl in H1. discriminate H1.
  - rewrite !append_cons in E. injection E as -> E.
    unfold no_rparen in H1, H2. simpl in H1, H2.
    apply andb_true_iff in H1 as [_ H1]. apply andb_true_iff in H2 as [_ H2].
    destruct (IH k2 H1 H2 E) as [-> ->]. done.
Qed.

(** X10: When field names hold no [)], an entry determines its name and the
    text of its value: different names, or different value texts, never
    give the same line. *)
Theorem fieldEntry_injective (k1 k2 : string) (v1 v2 : value) :
  no_rparen k1 = true ->
  no_rparen k2 = true ->
  fieldEntry k1 v1 = fieldEntry k2 v2 ->
  k1 = k2 /\ valStr v1 = valStr v2.
Proof.
  intros H1 H2 E. unfold fieldEntry in E.
  apply (inj (String.app "<< /T (")) in E.
  change (") /V (" +:+ valStr v1 +:+ ")>>" +:+ LF)
    with (String ")" (" /V (" +:+ valStr v1 +:+ ")>>" +:+ LF)) in E.
  change (") /V (" +:+ valStr v2 +:+ ")>>" +:+ LF)
    with (String ")" (" /V (" +:+ valStr v2 +:+ ")>>" +:+ LF)) in E.
  destruct (split_at_rparen _ _ _ _ H1 H2 E) as [-> E'].
  split; [done|].
  apply (inj (String.app " /V (")) in E'.
  exact (append_inj_r _ _ _ E').
Qed.

Lemma fieldEntry_injective_witness :
  no_rparen "Name" = true /\
  fieldEntry "Name" (VString "Yes") = fieldEntry "Name" (VBool true) /\
  valStr (VString "Yes") = valStr (VBool true).
Proof.
  assert (H1 : no_rparen "Name" = true) by reflexivity.
  assert (E : fieldEntry "Name" (VString "Yes") = fieldEntry "Name" (VBool true))
    by reflexivity.
  split; [exact H1|]. split; [exact E|].
  destruct (fieldEntry_injective "Name" "Name" (VString "Yes") (VBool true)
              H1 H1 E) as [_ H].
  exact H.
Defined.

(** X11: Names and values are not escaped, so a [)] in a name makes the
    encoding ambiguous: for all texts [k], [s], [t] the field named
    [k) /V (s] with value [t] and the field named [k] with value
    [s) /V (t] give the same line, and the two one-field forms the same
    FDF text. *)
Theorem unescaped_entries_collide (k s t : string) :
  let k1 := k +:+ ") /V (" +:+ s in
  let v2 := VString (s +:+ ") /V (" +:+ t) in
  k1 <> k /\
  fieldEntry k1 (VString t) = fieldEntry k v2 /\
  ({[ k1 := VString t ]} : Form) <> {[ k := v2 ]} /\
  part_000.createFdfFile (map_to_list ({[ k1 := VString t ]} : Form)) =
    part_000.createFdfFile (map_to_list ({[ k := v2 ]} : Form)) /\
  fillpdf_go.fdfContent (map_to_list ({[ k1 := VString t ]} : Form)) =
    fillpdf_go.fdfContent (map_to_list ({[ k := v2 ]} : Form)).
Proof.
  intros k1 v2.
  assert (Hne : k1 <> k).
  { intros E. apply (f_equal String.length) in E. subst k1.
    rewrite !length_append in E. simpl in E. lia. }
  assert (HE : fieldEntry k1 (VString t) = fieldEntry k v2).
  { subst k1 v2. unfold fieldEntry. cbn [valStr].
    by rewrite !append_assoc. }
  split_and!; [done|done| | |].
  - intros E. apply (f_equal (fun m : Form => m !! k)) in E.
    rewrite lookup_singleton_ne, lookup_singleton_eq in E by done.
    discriminate E.
  - rewrite !map_to_list_singleton.
    unfold part_000.createFdfFile, fdfText, fieldEntries. simpl.
    by rewrite HE.
  - rewrite !map_to_list_singleton.
    unfold fillpdf_go.fdfContent, fdfText, fieldEntries. simpl.
    by rewrite HE.
Qed.

(** ** More on the number text *)



Lemma decode_fields_negated (bits : Z) :
  0 <= bits < 2 ^ 63 ->
  Z.shiftr bits (strconv.expbits + strconv.mantbits) = 0 /\
  Z.shiftr (bits + 2 ^ 63) (strconv.expbits + strconv.mantbits) = 1 /\
  Z.land (Z.shiftr (bits + 2 ^ 63) strconv.mantbits)
         (Z.shiftl 1 strconv.expbits - 1) =
    Z.land (Z.shiftr bits strconv.mantbits) (Z.shiftl 1 strconv.expbits - 1) /\
  Z.land (bits + 2 ^ 63) (Z.shiftl 1 strconv.mantbits - 1) =
    Z.land bits (Z.shiftl 1 strconv.mantbits - 1).
Proof.
  intros Hb.
  change (Z.shiftl 1 strconv.expbits - 1) with (Z.ones 11).
  change (Z.shiftl 1 strconv.mantbits - 1) with (Z.ones 52).
  change (strconv.expbits + strconv.mantbits) with 63.
  change strconv.mantbits with 52.
  rewrite !Z.shiftr_div_pow2, !Z.land_ones by lia.
  split_and!.
  - apply Z.div_small. lia.
  - replace (bits + 2 ^ 63) with (bits + 1 * 2 ^ 63) by lia.
    rewrite Z.div_add by lia. rewrite Z.div_small; lia.
  - replace (bits + 2 ^ 63) with (bits + 2 ^ 11 * 2 ^ 52) by lia.
    rewrite Z.div_add by lia.
    replace (bits / 2 ^ 52 + 2 ^ 11) with (bits / 2 ^ 52 + 1 * 2 ^ 11) by lia.
    apply Z.mod_add. lia.
  - replace (bits + 2 ^ 63) with (bits + 2 ^ 11 * 2 ^ 52) by lia.
    apply Z.mod_add. lia.
Qed.

(** X12: The sign bit alone decides the sign of the text: a finite float
    with the sign bit set is written as [-] followed by the text of the
    float without it. *)
Theorem FormatFloat_sign_bit (bits : Z) (neg : bool) (mant exp : Z) :
  0 <= bits < 2 ^ 63 ->
  strconv.decode bits = strconv.Finite neg mant exp ->
  neg = false /\
  strconv.decode (bits + 2 ^ 63) = strconv.Finite true mant exp /\
  valStr (VFloat64 (bits + 2 ^ 63)) = String "-" (valStr (VFloat64 bits)).
Proof.
  intros Hb Hdec. cbn [valStr].
  destruct (decode_fields_negated bits Hb) as (Hs0 & Hs1 & He & Hm).
  assert (Hneg : strconv.decode (bits + 2 ^ 63) = strconv.Finite true mant exp
                 /\ neg = false).
  { unfold strconv.decode in *. rewrite Hs1, He, Hm. rewrite Hs0 in Hdec.
    destruct (_ =? Z.shiftl 1 strconv.expbits - 1).
    - destruct (negb _) in Hdec; discriminate Hdec.
    - destruct (_ =? 0); injection Hdec as <- <- <-; done. }
  destruct Hneg as [Hdec' ->]. split_and!; [done|done|].
  unfold strconv.FormatFloat. rewrite Hdec, Hdec'. reflexivity.
Qed.

Lemma FormatFloat_sign_bit_witness :
  0 <= bits_1_5 < 2 ^ 63 /\
  strconv.decode bits_1_5 = strconv.Finite false (3 * 2 ^ 51) 0 /\
  valStr (VFloat64 (bits_1_5 + 2 ^ 63)) = String "-" (valStr (VFloat64 bits_1_5)).
Proof.
  assert (H1 : 0 <= bits_1_5 < 2 ^ 63) by (unfold bits_1_5; lia).
  assert (H2 : strconv.decode bits_1_5 = strconv.Finite false (3 * 2 ^ 51) 0)
    by (vm_compute; reflexivity).
  split; [exact H1|]. split; [exact H2|].
  destruct (FormatFloat_sign_bit bits_1_5 false (3 * 2 ^ 51) 0 H1 H2)
    as (_ & _ & H).
  exact H.
Defined.


Lemma utoa_loop_S (fuel : nat) (n : Z) (acc : string) :
  utoa_loop (S fuel) n acc =
    if n / 10 =? 0 then String (digit_char (n mod 10)) acc
    else utoa_loop fuel (n / 10) (String (digit_char (n mod 10)) acc).
Proof. reflexivity. Qed.

(** The digits do not depend on the fuel, once it covers them. *)
Lemma utoa_loop_fuel (f1 f2 : nat) (n : Z) :
  0 <= n -> n < 10 ^ Z.of_nat (S f1) -> n < 10 ^ Z.of_nat (S f2) ->
  utoa_loop (S f1) n "" = utoa_loop (S f2) n "".
Proof.
  revert f2 n. induction f1 as [|f1 IH]; intros f2 n Hn H1 H2.
  - change (10 ^ Z.of_nat 1) with 10 in H1.
    assert (Hz : n / 10 = 0) by (apply Z.div_small; lia).
    rewrite (utoa_loop_S 0), (utoa_loop_S f2), Hz. reflexivity.
  - rewrite (utoa_loop_S (S f1)), (utoa_loop_S f2).
    destruct (n / 10 =? 0) eqn:Hz; [reflexivity|].
    apply Z.eqb_neq in Hz.
    destruct f2 as [|f2].
    { change (10 ^ Z.of_nat 1) with 10 in H2.
      rewrite Z.div_small in Hz; lia. }
    rewrite (utoa_loop_acc (S f1)), (utoa_loop_acc (S f2)).
    f_equal. rewrite pow10_succ in H1, H2.
    apply IH.
    + apply Z.div_pos; lia.
    + apply Z.div_lt_upper_bound; lia.
    + apply Z.div_lt_upper_bound; lia.
Qed.

(** One more digit at the end. *)
Lemma utoa_snoc (m d : Z) :
  0 < m -> 0 <= d < 10 ->
  utoa (10 * m + d) = utoa m +:+ String (digit_char d) "".
Proof.
  intros Hm Hd.
  assert (Hdiv : (10 * m + d) / 10 = m).
  { rewrite Z.mul_comm, Z.div_add_l by lia. rewrite Z.div_small; lia. }
  assert (Hmod : (10 * m + d) mod 10 = d).
  { rewrite Z.add_comm, Z.mul_comm, Z.mod_add by lia. apply Z.mod_small. lia. }
  unfold utoa at 1. unfold utoa_fuel. rewrite utoa_loop_S.
  rewrite Hdiv, Hmod. replace (m =? 0) with false by (symmetry; lia).
  rewrite utoa_loop_acc. f_equal.
  assert (Hlog : 3 <= Z.log2 (10 * m + d)).
  { change 3 with (Z.log2 10). apply Z.log2_le_mono. lia. }
  destruct (Z.to_nat (Z.log2 (10 * m + d))) as [|F] eqn:HF; [lia|].
  unfold utoa, utoa_fuel. apply utoa_loop_fuel; [lia| |].
  - rewrite <- HF, Z2Nat.id by lia.
    pose proof (Z.log2_spec (10 * m + d)) as [_ Hs]; [lia|].
    rewrite Z.pow_succ_r in Hs by lia.
    assert (m < 2 ^ Z.log2 (10 * m + d)) by lia.
    pose proof (Z.pow_le_mono_l 2 10 (Z.log2 (10 * m + d))). lia.
  - apply (utoa_fuel_bound m Hm).
Qed.

Lemma zeros_snoc (t : nat) :
  strconv.zeros t +:+ "0" = strconv.zeros (S t).
Proof.
  induction t as [|t IH]; [done|].
  change (strconv.zeros (S t)) with (String "0" (strconv.zeros t)).
  rewrite append_cons, IH. reflexivity.
Qed.

(** A number that ends in [t] zeros prints as the rest and [t] zeros. *)
Lemma utoa_pow10 (q : Z) (t : nat) :
  0 < q -> utoa (q * 10 ^ Z.of_nat t) = utoa q +:+ strconv.zeros t.
Proof.
  intros Hq. induction t as [|t IH].
  - change (10 ^ Z.of_nat 0) with 1. rewrite Z.mul_1_r.
    symmetry. apply append_nil_r.
  - rewrite pow10_succ.
    replace (q * (10 * 10 ^ Z.of_nat t)) with (10 * (q * 10 ^ Z.of_nat t) + 0)
      by lia.
    pose proof (pow10_pos t).
    rewrite utoa_snoc by nia. rewrite IH, append_assoc.
    f_equal. apply zeros_snoc.
Qed.

Lemma substring_full (s : string) : String.substring 0 (String.length s) s = s.
Proof. induction s as [|c s IH]; [done|]. simpl. by rewrite IH. Qed.

Lemma utoa_nonempty (n : Z) : (1 <= String.length (utoa n))%nat.
Proof.
  destruct (utoa_last n) as [pre ->]. rewrite length_append. simpl. lia.
Qed.

(** The bounds of a float that holds the integer [n] below [2^53]: the
    value is [n] in the unit, and [n] is the only integer in the
    interval. *)
Lemma computeBounds_integer (mant exp n : Z) :
  0 < n -> exp <= strconv.mantbits -> mant = n * 2 ^ (strconv.mantbits - exp) ->
  let b := strconv.computeBounds mant exp in
  let e0 := Z.to_nat (54 - exp) in
  strconv.b_value b = n * 10 ^ Z.of_nat e0 /\
  strconv.b_qmin b = - Z.of_nat e0 /\
  (forall y, strconv.inside b (y * 10 ^ Z.of_nat e0) = true -> y = n).
Proof.
  intros Hn He Hm b e0. subst b e0. unfold strconv.mantbits in He, Hm.
  rewrite Z2Nat.id by lia.
  unfold strconv.computeBounds, strconv.inside, strconv.mantbits.
  cbn [strconv.b_lower strconv.b_value strconv.b_upper strconv.b_inclusive
       strconv.b_qmin].
  replace (exp - 52 - 2 <? 0) with true by (symmetry; lia).
  replace (- (exp - 52 - 2)) with (54 - exp) by lia.
  set (F := 5 ^ (54 - exp)).
  set (P := 2 ^ (52 - exp)) in *.
  assert (HF : 0 < F) by (apply Z.pow_pos_nonneg; lia).
  assert (HP : 0 < P) by (apply Z.pow_pos_nonneg; lia).
  assert (HT : 10 ^ (54 - exp) = 4 * P * F).
  { change 10 with (2 * 5). rewrite Z.pow_mul_l. fold F. subst P.
    replace (54 - exp) with (2 + (52 - exp)) at 1 by lia.
    rewrite Z.pow_add_r by lia. lia. }
  rewrite HT. subst mant.
  set (lo := if (2 ^ 52 <? n * P) || (exp =? strconv.bias + 1)
             then 4 * (n * P) - 2 else 4 * (n * P) - 1).
  assert (Hlo : 4 * (n * P) - 2 <= lo) by (subst lo; destruct (_ || _); lia).
  split_and!; [lia|lia|].
  intros y Hy.
  assert (Hr : lo * F <= y * (4 * P * F) <= (4 * (n * P) + 2) * F).
  { destruct (Z.even (n * P)); apply andb_true_iff in Hy as [H1 H2]; lia. }
  destruct (Z.lt_trichotomy y n) as [Hlt|[->|Hgt]]; [exfalso|done|exfalso].
  - assert (y * (4 * P) <= n * (4 * P) - 4 * P) by nia. nia.
  - assert (n * (4 * P) + 4 * P <= y * (4 * P)) by nia. nia.
Qed.

(** X13: A float that holds an integer below [2^53] is written as that
    integer: its decimal digits, no point, no exponent. *)
Theorem FormatFloat_integer (bits : Z) (neg : bool) (mant exp n : Z) :
  strconv.decode bits = strconv.Finite neg mant exp ->
  0 < n ->
  exp <= strconv.mantbits ->
  mant = n * 2 ^ (strconv.mantbits - exp) ->
  strconv.FormatFloat bits = (if neg then "-" else "") +:+ utoa n /\
  valStr (VFloat64 bits) = (if neg then "-" else "") +:+ FormatInt n.
Proof.
  intros Hdec Hn He Hm.
  assert (Hint : FormatInt n = utoa n).
  { unfold FormatInt. by replace (n <? 0) with false by (symmetry; lia). }
  rewrite Hint. cbn [valStr].
  assert (Htext : strconv.FormatFloat bits = (if neg then "-" else "") +:+ utoa n);
    [|by split].
  unfold strconv.FormatFloat. rewrite Hdec. cbv zeta.
  destruct (computeBounds_integer mant exp n Hn He Hm) as (HV & Hq & Huniq).
  assert (Hmant : 0 < mant).
  { subst mant. apply Z.mul_pos_pos; [lia|].
    apply Z.pow_pos_nonneg; unfold strconv.mantbits in *; lia. }
  destruct (computeBounds_facts mant exp Hmant) as [HL Hin].
  set (b := strconv.computeBounds mant exp) in *.
  set (e0 := Z.to_nat (54 - exp)) in *.
  (* where the walk stops *)
  destruct (strconv.roundShortest b (utoa_fuel (strconv.b_upper b)))
    as [x k] eqn:Hrs.
  destruct (roundShortest_minimal b HL Hin x k Hrs)
    as (Hx & (q & Hq0 & _ & Hxq) & Hmin).
  assert (Hk : (e0 <= k)%nat).
  { destruct (le_lt_dec e0 k) as [|Hlt]; [done|].
    specialize (Hmin e0 n Hlt). rewrite <- HV, Hin in Hmin. done. }
  assert (Hnq : q * 10 ^ Z.of_nat (k - e0) = n).
  { apply Huniq. rewrite <- Z.mul_assoc, <- (pow10_split e0 k Hk).
    by rewrite <- Hxq. }
  assert (Hdiv : x / 10 ^ Z.of_nat k = q).
  { rewrite Hxq. apply Z.div_mul. pose proof (pow10_pos k). lia. }
  (* the digits and where the point goes *)
  unfold strconv.shortest. replace (mant =? 0) with false by (symmetry; lia).
  fold b. rewrite Hrs, Hdiv, Hq.
  unfold strconv.fmtF, strconv.d_nd. cbn [strconv.d_digits strconv.d_dp].
  pose proof (utoa_nonempty q) as Hlen.
  set (len := String.length (utoa q)) in *.
  replace (Z.max (Z.of_nat len - (Z.of_nat len + Z.of_nat k + - Z.of_nat e0)) 0)
    with 0 by lia.
  replace (0 <? Z.of_nat len + Z.of_nat k + - Z.of_nat e0) with true
    by (symmetry; lia).
  replace (Z.min (Z.of_nat len) (Z.of_nat len + Z.of_nat k + - Z.of_nat e0))
    with (Z.of_nat len) by lia.
  rewrite Nat2Z.id. subst len. rewrite substring_full.
  replace (Z.to_nat (Z.of_nat (String.length (utoa q)) + Z.of_nat k
                     + - Z.of_nat e0 - Z.of_nat (String.length (utoa q))))
    with (k - e0)%nat by lia.
  change (0 <? 0) with false. cbv iota.
  rewrite append_nil_r, <- utoa_pow10, Hnq by done.
  reflexivity.
Qed.

Lemma FormatFloat_integer_witness :
  strconv.decode bits_30 = strconv.Finite false (15 * 2 ^ 49) 4 /\
  0 < 30 /\ 4 <= strconv.mantbits /\
  15 * 2 ^ 49 = 30 * 2 ^ (strconv.mantbits - 4) /\
  strconv.FormatFloat bits_30 = "" +:+ utoa 30.
Proof.
  assert (H1 : strconv.decode bits_30 = strconv.Finite false (15 * 2 ^ 49) 4)
    by (vm_compute; reflexivity).
  assert (H2 : 0 < 30) by lia.
  assert (H3 : 4 <= strconv.mantbits) by (unfold strconv.mantbits; lia).
  assert (H4 : 15 * 2 ^ 49 = 30 * 2 ^ (strconv.mantbits - 4)) by reflexivity.
  split_and!; [exact H1|exact H2|exact H3|exact H4|].
  destruct (FormatFloat_integer bits_30 false _ 4 30 H1 H2 H3 H4) as [H _].
  exact H.
Defined.
